(** * geo-data-viz-app: the raster stretch calculator and the local cache fetcher

    A shallow embedding of [src/utils.py]: [calculate_vmin_vmax],
    [visualize_vector], [visualize_raster], [create_map], [download_from_s3]
    and [list_folders], with [get_iso_list] of [src/app.py] and the parts of
    [os.path], NumPy, rasterio, boto3 and leafmap that these functions call.

    Conventions of the embedding.
    - [np.float64] is IEEE 754 binary64, taken from the Standard Library's
      [SpecFloat] (53 bits of precision, exponent bound 1024), so NaN, the
      infinities and rounding are the ones the code computes with.
    - Python exceptions are values of [exn]; a call yields a [result] and the
      world it leaves behind, so what a call changed before it raised stays
      visible.
    - The world holds the local file system, the object store, the wall
      clock, the log of object-store requests and the standard output.
    - Paths follow [posixpath].
    - The Streamlit decorator [@st.cache_data] on [calculate_vmin_vmax]
      belongs to the UI framework; the embedding is of the function body. *)

From Stdlib Require Import ZArith String Ascii List Bool Lia.
From Stdlib Require Import Floats.SpecFloat.
From stdpp Require Import gmap strings list.

Local Open Scope string_scope.
Local Open Scope Z_scope.

(** ** binary64 arithmetic

    The comparisons are [SpecFloat]'s; on canonical values, the ones every
    operation below returns, they are the numeric order, with NaN unordered
    and the two zeros equal. *)

Module F64.

Definition prec : Z := 53.
Definition emax : Z := 1024.

Definition add : spec_float -> spec_float -> spec_float := SFadd prec emax.
Definition sub : spec_float -> spec_float -> spec_float := SFsub prec emax.
Definition mul : spec_float -> spec_float -> spec_float := SFmul prec emax.
Definition div : spec_float -> spec_float -> spec_float := SFdiv prec emax.
Definition sqrt : spec_float -> spec_float := SFsqrt prec emax.
Definition abs : spec_float -> spec_float := SFabs.

Definition eqb : spec_float -> spec_float -> bool := SFeqb.
Definition ltb : spec_float -> spec_float -> bool := SFltb.
Definition leb : spec_float -> spec_float -> bool := SFleb.

(** Python's [!=]: true as soon as one side is NaN. *)
Definition neb (x y : spec_float) : bool := negb (eqb x y).
(** Python's [>=]. *)
Definition geb (x y : spec_float) : bool := leb y x.

Definition isnan (x : spec_float) : bool :=
  match x with S754_nan => true | _ => false end.

Definition isinf (x : spec_float) : bool :=
  match x with S754_infinity _ => true | _ => false end.

(** [float(z)] for a Python integer, rounded to nearest even. *)
Definition of_Z (z : Z) : spec_float := binary_normalize prec emax z 0 false.

Definition nan : spec_float := S754_nan.
Definition inf : spec_float := S754_infinity false.

(** [np.floor] of a float, as the integer it denotes (NaN and the
    infinities have none). *)
Definition floor (x : spec_float) : option Z :=
  match x with
  | S754_zero _ => Some 0
  | S754_finite s m e =>
      let v := if s then Z.neg m else Z.pos m in
      Some (if 0 <=? e then v * 2 ^ e else v / 2 ^ (- e))
  | _ => None
  end.

End F64.

Abbreviation f64 := spec_float.

(** ** The NumPy reductions the stretch calculator calls

    The arrays are one-dimensional [float64] arrays, held as lists. *)

Module Np.

(** [np.min] and [np.max] of an array with at least one element; NumPy
    raises on an empty one, which is [None] here. *)
Definition minimum (a b : f64) : f64 := if F64.ltb b a then b else a.
Definition maximum (a b : f64) : f64 := if F64.ltb a b then b else a.

Definition min (a : list f64) : option f64 :=
  match a with
  | [] => None
  | x :: xs => Some (fold_left minimum xs x)
  end.

Definition max (a : list f64) : option f64 :=
  match a with
  | [] => None
  | x :: xs => Some (fold_left maximum xs x)
  end.

(** [np.sum]: the elements added from left to right. *)
Definition sum (a : list f64) : f64 := fold_left F64.add a (S754_zero false).

Definition size (a : list f64) : Z := Z.of_nat (length a).

(** [np.mean]: the sum divided by the number of elements. *)
Definition mean (a : list f64) : f64 := F64.div (sum a) (F64.of_Z (size a)).

(** [np.std] with its default [ddof=0]: the square root of the mean of the
    squared deviations from the mean (the population standard deviation). *)
Definition std (a : list f64) : f64 :=
  let m := mean a in
  let x := map (fun v => F64.sub v m) a in
  let x2 := map (fun v => F64.mul v v) x in
  F64.sqrt (F64.div (sum x2) (F64.of_Z (size a))).

(** Ascending order, for the partition [np.percentile] performs. *)
Fixpoint insert_sorted (x : f64) (l : list f64) : list f64 :=
  match l with
  | [] => [x]
  | y :: ys => if F64.leb x y then x :: l else y :: insert_sorted x ys
  end.

Definition sort (a : list f64) : list f64 := fold_right insert_sorted [] a.

(** [a[i]] with Python's negative indices; [None] out of range. *)
Definition item (a : list f64) (i : Z) : option f64 :=
  let n := size a in
  let j := if i <? 0 then i + n else i in
  if (0 <=? j) && (j <? n) then nth_error a (Z.to_nat j) else None.

(** NumPy's [_lerp]: [a + (b - a) * t], and [b - (b - a) * (1 - t)] once
    [t >= 0.5]. *)
Definition lerp (a b t : f64) : f64 :=
  let diff_b_a := F64.sub b a in
  if F64.geb t (F64.div (F64.of_Z 1) (F64.of_Z 2))
  then F64.sub b (F64.mul diff_b_a (F64.sub (F64.of_Z 1) t))
  else F64.add a (F64.mul diff_b_a t).

(** [_get_indexes]: the two neighbours of a virtual index, both the last
    element at or above [n - 1], both the first one below 0. *)
Definition get_indexes (virtual_index : f64) (n : Z) : option (Z * Z) :=
  if F64.geb virtual_index (F64.of_Z (n - 1)) then Some (-1, -1)
  else if F64.ltb virtual_index (F64.of_Z 0) then Some (0, 0)
  else if F64.isnan virtual_index then Some (-1, -1)
  else match F64.floor virtual_index with
       | Some p => Some (p, p + 1)
       | None => None
       end.

(** One quantile [q] in [0, 1] of a non-empty array, by the default linear
    method: the virtual index is [(n - 1) * q]. *)
Definition quantile (a : list f64) (q : f64) : option f64 :=
  let n := size a in
  let virtual_index := F64.mul (F64.of_Z (n - 1)) q in
  match get_indexes virtual_index n with
  | Some (previous_index, next_index) =>
      let arr := sort a in
      match item arr previous_index, item arr next_index with
      | Some previous, Some next =>
          let gamma := F64.sub virtual_index (F64.of_Z previous_index) in
          Some (lerp previous next gamma)
      | _, _ => None
      end
  | None => None
  end.

(** [_quantile_is_valid]: every quantile lies in [0, 1]. *)
Definition quantile_is_valid (qs : list f64) : bool :=
  forallb (fun q => F64.leb (F64.of_Z 0) q && F64.leb q (F64.of_Z 1)) qs.

Inductive percentile_result :=
| Percentiles (lo hi : f64)
| OutOfRange
| EmptyArray.

(** [np.percentile(a, (lo, hi))]: the percentiles are divided by 100 and
    checked, then each quantile is taken. *)
Definition percentile (a : list f64) (p : f64 * f64) : percentile_result :=
  let q_lo := F64.div (fst p) (F64.of_Z 100) in
  let q_hi := F64.div (snd p) (F64.of_Z 100) in
  if negb (quantile_is_valid [q_lo; q_hi]) then OutOfRange
  else match quantile a q_lo, quantile a q_hi with
       | Some lo, Some hi => Percentiles lo hi
       | _, _ => EmptyArray
       end.

End Np.

(** ** [os.path] (posixpath) *)

Module Path.

Definition sep : ascii := "/"%char.
Definition extsep : ascii := "."%char.

(** [s.rfind(c)] for a one-character [c]: the index of its last occurrence,
    [-1] when there is none. *)
Fixpoint rfind_from (c : ascii) (s : string) (i last : Z) : Z :=
  match s with
  | EmptyString => last
  | String d rest => rfind_from c rest (i + 1) (if Ascii.eqb d c then i else last)
  end.

Definition rfind (c : ascii) (s : string) : Z := rfind_from c s 0 (-1).

(** The slices [s[n:]] and [s[:n]] for [n >= 0]. *)
Fixpoint drop_chars (n : nat) (s : string) : string :=
  match n, s with
  | O, _ => s
  | S _, EmptyString => EmptyString
  | S k, String _ rest => drop_chars k rest
  end.

Fixpoint take_chars (n : nat) (s : string) : string :=
  match n, s with
  | O, _ => EmptyString
  | S _, EmptyString => EmptyString
  | S k, String d rest => String d (take_chars k rest)
  end.

Definition startswith_sep (s : string) : bool :=
  match s with
  | String d _ => Ascii.eqb d sep
  | EmptyString => false
  end.

Fixpoint endswith_sep (s : string) : bool :=
  match s with
  | EmptyString => false
  | String d EmptyString => Ascii.eqb d sep
  | String _ rest => endswith_sep rest
  end.

(** [basename(p)]: [i = p.rfind('/') + 1; return p[i:]]. *)
Definition basename (p : string) : string :=
  let i := rfind sep p + 1 in
  drop_chars (Z.to_nat i) p.

(** [join(a, b)] with one component [b]. *)
Definition join (a b : string) : string :=
  if startswith_sep b then b
  else if (String.eqb a "" || endswith_sep a)%bool then a ++ b
  else a ++ String sep b.

(** [splitext(p)]: split at the last dot of the last component, unless that
    component has only leading dots before it. *)
Fixpoint all_extsep (s : string) : bool :=
  match s with
  | EmptyString => true
  | String d rest => (Ascii.eqb d extsep && all_extsep rest)%bool
  end.

Definition splitext (p : string) : string * string :=
  let sepIndex := rfind sep p in
  let dotIndex := rfind extsep p in
  if (sepIndex <? dotIndex)
     && negb (all_extsep (take_chars (Z.to_nat (dotIndex - (sepIndex + 1)))
                                     (drop_chars (Z.to_nat (sepIndex + 1)) p)))
  then (take_chars (Z.to_nat dotIndex) p, drop_chars (Z.to_nat dotIndex) p)
  else (p, "").

(** [s.split(c)]: the segments between the occurrences of [c]. *)
Fixpoint split (c : ascii) (s : string) : list string :=
  match s with
  | EmptyString => [""]
  | String d rest =>
      if Ascii.eqb d c then "" :: split c rest
      else match split c rest with
           | h :: t => String d h :: t
           | [] => [String d ""]
           end
  end.

Fixpoint has_char (c : ascii) (s : string) : bool :=
  match s with
  | EmptyString => false
  | String d rest => Ascii.eqb d c || has_char c rest
  end.

(** The final slash-delimited segment of a key. *)
Definition last_segment (key : string) : string := List.last (split sep key) "".

End Path.

(** ** Exceptions, files and the world *)

Inductive exn :=
| ValueError (msg : string)
| UnboundLocalError (name : string)
| IndexError (msg : string)
| RasterioIOError (path : string)
| FileNotFoundError (path : string)
| ClientError (bucket key : string).

(** [UnboundLocalError] is a subclass of [NameError]. *)
Definition is_NameError (e : exn) : bool :=
  match e with UnboundLocalError _ => true | _ => false end.

Inductive result (A : Type) :=
| Ok (a : A)
| Raise (e : exn).
Arguments Ok {A} a.
Arguments Raise {A} e.

(** What rasterio reads from a raster file: the bands as two-dimensional
    grids (already as [float64], which is what [astype(np.float64)] yields),
    the declared no-data value, the overview factors and the tags. *)
Record raster := {
  bands : list (list (list f64));
  nodata : option f64;
  overview_factors : list Z;
  tags : list (string * string * string)
}.

Inductive content :=
| RasterFile (r : raster)
| Blob (bytes : string).

Record file := {
  mtime : f64;
  payload : content
}.

Inductive out_line :=
| Line (s : string)
| RangeLine (v_min v_max : f64).

Record world := {
  fs : gmap string file;
  store : gmap (string * string) content;
  now : f64;
  requests : list (string * string * string);
  stdout : list out_line
}.

Definition set_fs (w : world) (m : gmap string file) : world :=
  {| fs := m; store := store w; now := now w;
     requests := requests w; stdout := stdout w |}.

Definition set_now (w : world) (t : f64) : world :=
  {| fs := fs w; store := store w; now := t;
     requests := requests w; stdout := stdout w |}.

(** ** The monad of calls: a result and the world left behind *)

Definition M (A : Type) : Type := world -> result A * world.

#[global] Instance M_ret : MRet M := fun A a w => (Ok a, w).

#[global] Instance M_bind : MBind M := fun A B f m w =>
  match m w with
  | (Ok a, w') => f a w'
  | (Raise e, w') => (Raise e, w')
  end.

Definition raise {A : Type} (e : exn) : M A := fun w => (Raise e, w).

Definition print (l : out_line) : M unit := fun w =>
  (Ok tt, {| fs := fs w; store := store w; now := now w;
             requests := requests w; stdout := stdout w ++ [l] |}).

(** *** rasterio *)

(** [rasterio.open(path)] in read mode. *)
Definition rasterio_open (path : string) : M raster := fun w =>
  match fs w !! path with
  | Some {| payload := RasterFile r |} => (Ok r, w)
  | _ => (Raise (RasterioIOError path), w)
  end.

(** Leaving a [with rasterio.open(path, 'r+')] block: the dataset is written
    back to its file. *)
Definition rasterio_close_rw (path : string) (r : raster) : M unit := fun w =>
  (Ok tt, set_fs w (<[path := {| mtime := now w; payload := RasterFile r |}]> (fs w))).

(** [src.read(1)]: the first band. *)
Definition read_band1 (src : raster) : M (list (list f64)) :=
  match bands src with
  | b :: _ => mret b
  | [] => raise (IndexError "band index 1 out of range (not in ())")
  end.

(** [dst.overviews(1)]. *)
Definition overviews1 (dst : raster) : M (list Z) :=
  match bands dst with
  | _ :: _ => mret (overview_factors dst)
  | [] => raise (IndexError "band index 1 out of range (not in ())")
  end.

Definition build_overviews (dst : raster) (levels : list Z) : raster :=
  {| bands := bands dst; nodata := nodata dst;
     overview_factors := levels; tags := tags dst |}.

Definition update_tags (dst : raster) (ns k v : string) : raster :=
  {| bands := bands dst; nodata := nodata dst;
     overview_factors := overview_factors dst;
     tags := tags dst ++ [(ns, k, v)] |}.

(** *** os.path on the world, the clock, boto3 *)

Definition exists_ (path : string) : M bool := fun w =>
  (Ok (match fs w !! path with Some _ => true | None => false end), w).

Definition getmtime (path : string) : M f64 := fun w =>
  match fs w !! path with
  | Some f => (Ok (mtime f), w)
  | None => (Raise (FileNotFoundError path), w)
  end.

(** [datetime.now().timestamp()]. *)
Definition datetime_now_timestamp : M f64 := fun w => (Ok (now w), w).

(** [s3.download_file(bucket, key, path)]: one request to the object store;
    the whole object is written to [path], over any file there. *)
Definition s3_download_file (bucket key path : string) : M unit := fun w =>
  let w1 := {| fs := fs w; store := store w; now := now w;
               requests := requests w ++ [(bucket, key, path)];
               stdout := stdout w |} in
  match store w !! (bucket, key) with
  | Some c => (Ok tt, set_fs w1 (<[path := {| mtime := now w; payload := c |}]> (fs w)))
  | None => (Raise (ClientError bucket key), w1)
  end.

(** *** leafmap *)

Record vis_params := {
  indexes : list Z;
  vp_vmin : f64;
  vp_vmax : f64;
  opacity : f64;
  colormap : string
}.

Inductive layer :=
| RasterLayer (path layer_name : string) (params : vis_params)
| GeoJsonLayer (path layer_name : string).

Record leafmap_Map := {
  center : list Z;
  zoom : Z;
  layers : list layer
}.

Definition add_raster (m : leafmap_Map) (path layer_name : string) (p : vis_params)
  : leafmap_Map :=
  {| center := center m; zoom := zoom m;
     layers := layers m ++ [RasterLayer path layer_name p] |}.

Definition leafmap_new (center : list Z) (zoom : Z) : leafmap_Map :=
  {| center := center; zoom := zoom; layers := [] |}.

(** [boto3.client('s3')]: builds the client, sends nothing. *)
Definition boto3_client (service : string) : M unit := mret tt.

(** Reading a local variable that may not have been assigned. *)
Definition load_local {A : Type} (name : string) (v : option A) : M A :=
  match v with
  | Some a => mret a
  | None => raise (UnboundLocalError name)
  end.

(** ** src/utils.py *)

Definition no_valid_pixels_msg : string :=
  "No valid pixel values found in the raster.".

Definition invalid_method_msg : string :=
  "Invalid method. Choose from 'min_max', 'percent_clip', or 'std_dev'.".

(** Lines 42-44: the cells that are neither NaN nor infinite and, when a
    no-data value is declared, differ from it; a boolean mask flattens the
    grid row by row. *)
Definition finite_cell (x : f64) : bool := negb (F64.isnan x) && negb (F64.isinf x).

Definition valid_data (data : list (list f64)) (nodata : option f64) : list f64 :=
  let valid := List.filter finite_cell (concat data) in
  match nodata with
  | Some nd => List.filter (fun x => F64.neb x nd) valid
  | None => valid
  end.

Definition np_min (a : list f64) : M f64 :=
  match Np.min a with
  | Some v => mret v
  | None => raise (ValueError "zero-size array to reduction operation minimum which has no identity")
  end.

Definition np_max (a : list f64) : M f64 :=
  match Np.max a with
  | Some v => mret v
  | None => raise (ValueError "zero-size array to reduction operation maximum which has no identity")
  end.

Definition np_percentile (a : list f64) (p : f64 * f64) : M (f64 * f64) :=
  match Np.percentile a p with
  | Np.Percentiles lo hi => mret (lo, hi)
  | Np.OutOfRange => raise (ValueError "Percentiles must be in the range [0, 100]")
  | Np.EmptyArray => raise (IndexError "index -1 is out of bounds for axis 0 with size 0")
  end.

Definition default_percent_clip : f64 * f64 := (F64.of_Z 2, F64.of_Z 98).
Definition default_std_factor : f64 := F64.of_Z 2.

(** Lines 19-59. *)
Definition calculate_vmin_vmax (image_path method : string)
    (percent_clip : f64 * f64) (std_factor : f64) : M (f64 * f64) :=
  src ← rasterio_open image_path;
  data ← read_band1 src;
  let nodata := nodata src in
  let valid_data := valid_data data nodata in
  if Np.size valid_data =? 0 then raise (ValueError no_valid_pixels_msg)
  else if String.eqb method "min_max" then
    vmin ← np_min valid_data;
    vmax ← np_max valid_data;
    mret (vmin, vmax)
  else if String.eqb method "percent_clip" then
    np_percentile valid_data percent_clip
  else if String.eqb method "std_dev" then
    let mean := Np.mean valid_data in
    let std := Np.std valid_data in
    mret (F64.sub mean (F64.mul std_factor std),
          F64.add mean (F64.mul std_factor std))
  else raise (ValueError invalid_method_msg).

Definition is_none {A : Type} (o : option A) : bool :=
  match o with None => true | Some _ => false end.

(** Lines 101-103 of [visualize_raster]: the locals [v_min] and [v_max] are
    bound only when one of [vmin], [vmax] is [None]. *)
Definition assign_range (img_path : string) (vmin vmax : option f64)
  : M (option f64 * option f64) :=
  if is_none vmin || is_none vmax then
    r ← calculate_vmin_vmax img_path "std_dev"
          default_percent_clip default_std_factor;
    _ ← print (RangeLine (fst r) (snd r));
    mret (Some (fst r), Some (snd r))
  else mret (None, None).

(** Lines 105-113: with [build_overviews] set, the file is opened for
    update and, when its first band has no overviews yet, they are built and
    tagged. *)
Definition overviews_step (img_path : string) (build_overviews_flag : bool)
    (overviews_levels : list Z) : M unit :=
  if build_overviews_flag then
    dst ← rasterio_open img_path;
    ov ← overviews1 dst;
    match ov with
    | [] =>
        let dst1 := build_overviews dst overviews_levels in
        let dst2 := update_tags dst1 "rio" "resampling" "nearest" in
        rasterio_close_rw img_path dst2
    | _ :: _ => mret tt
    end
  else mret tt.

(** Lines 115-118: the visualization parameters read the locals [v_min] and
    [v_max]; the layer is added to the map. *)
Definition render (m : leafmap_Map) (img_path layer_name colormap : string)
    (locals : option f64 * option f64) : M leafmap_Map :=
  v_min ← load_local "v_min" (fst locals);
  v_max ← load_local "v_max" (snd locals);
  let vis_params :=
    {| indexes := [1]; vp_vmin := v_min; vp_vmax := v_max;
       opacity := F64.of_Z 1; colormap := colormap |} in
  mret (add_raster m img_path layer_name vis_params).

(** Lines 77-118. *)
Definition visualize_raster (img_path : string) (layer_name : option string)
    (colormap : string) (vmin vmax : option f64)
    (build_overviews_flag : bool) (overviews_levels : list Z) : M leafmap_Map :=
  let m := leafmap_new [20; 0] 2 in
  let layer_name :=
    match layer_name with
    | None => fst (Path.splitext (Path.basename img_path))
    | Some n => n
    end in
  locals ← assign_range img_path vmin vmax;
  _ ← overviews_step img_path build_overviews_flag overviews_levels;
  render m img_path layer_name colormap locals.

(** Lines 147-157. *)
Definition download_from_s3 (bucket_name key download_dir : string) : M string :=
  _ ← boto3_client "s3";
  let file_path := Path.join download_dir (Path.basename key) in
  present ← exists_ file_path;
  stale ← (if negb present then mret true
           else
             t ← getmtime file_path;
             n ← datetime_now_timestamp;
             mret (F64.ltb t (F64.sub n (F64.of_Z (24 * 3600)))));
  _ ← (if (stale : bool) then
         _ ← print (Line ("Downloading from S3: " ++ key));
         _ ← s3_download_file bucket_name key file_path;
         print (Line ("File downloaded to: " ++ file_path))
       else mret tt);
  mret file_path.

(** Lines 61-75. [add_geojson] registers the layer on the map. *)
Definition add_geojson (m : leafmap_Map) (path layer_name : string) : leafmap_Map :=
  {| center := center m; zoom := zoom m;
     layers := layers m ++ [GeoJsonLayer path layer_name] |}.

Definition visualize_vector (vector_path : string) (layer_name : option string)
  : M leafmap_Map :=
  let layer_name :=
    match layer_name with
    | None => fst (Path.splitext (Path.basename vector_path))
    | Some n => n
    end in
  let m := leafmap_new [20; 0] 2 in
  mret (add_geojson m vector_path layer_name).

(** [str.lower] on ASCII letters. *)
Definition ascii_lower (c : ascii) : ascii :=
  let n := nat_of_ascii c in
  if (Nat.leb 65 n && Nat.leb n 90)%bool then ascii_of_nat (n + 32) else c.

Fixpoint lower (s : string) : string :=
  match s with
  | EmptyString => EmptyString
  | String c rest => String (ascii_lower c) (lower rest)
  end.

(** [key.split('.')[-1].lower()], line 125 (and line 125 of app.py). *)
Definition extension (key : string) : string :=
  lower (List.last (Path.split Path.extsep key) "").

(** [x in (a, b, ...)] for strings. *)
Definition member (x : string) (l : list string) : bool := existsb (String.eqb x) l.

Definition raster_extensions : list string := ["tif"; "tiff"; "gtiff"].
Definition vector_extensions : list string := ["geojson"; "shp"].

(** The default of [overviews_levels] in [visualize_raster]. *)
Definition default_overviews_levels : list Z := [2; 4; 8; 16; 32; 64].

Definition unsupported_msg (ext : string) : string :=
  "Unsupported file type: " ++ ext ++ ". Please select a valid dataset.".

Section CreateMap.

(** The size in bytes of what a file holds. *)
Variable size_of : content -> Z.

Definition getsize (path : string) : M Z := fun w =>
  match fs w !! path with
  | Some f => (Ok (size_of (payload f)), w)
  | None => (Raise (FileNotFoundError path), w)
  end.

(** Lines 120-145. The value returned is paired with the messages
    [st.error] writes to the page. The local [build_overviews] of lines
    129-132 is not passed on: the keyword argument of line 138 is commented
    out. *)
Definition create_map (bucket_name key : string) (layer_name : option string)
    (session_temp_dir : string) : M (option leafmap_Map * list string) :=
  file_path ← download_from_s3 bucket_name key session_temp_dir;
  let ext := extension key in
  if member ext raster_extensions then
    size ← getsize file_path;
    let build_overviews := 100 * 1024 * 1024 <? size in
    m ← visualize_raster file_path layer_name "binary" None None
          false default_overviews_levels;
    mret (Some m, [])
  else if member ext vector_extensions then
    m ← visualize_vector file_path layer_name;
    mret (Some m, [])
  else mret (None, [unsupported_msg ext]).

End CreateMap.

(** [l[i]] for a Python list, negative indices counted from the end. *)
Definition py_index {A : Type} (l : list A) (i : Z) : option A :=
  let n := Z.of_nat (length l) in
  let j := if i <? 0 then i + n else i in
  if (0 <=? j) && (j <? n) then nth_error l (Z.to_nat j) else None.

Section ListFolders.

(** What the paginator of [list_objects_v2] yields for a bucket and a
    prefix with delimiter '/': for each page the ['Prefix'] values of its
    ['CommonPrefixes'] (none when the page has no such entry). The listing
    requests themselves are not logged in the world. *)
Variable paginate : string -> string -> list (list string).

(** Line 167: [prefix_data.get('Prefix').split('/')[-2]]. *)
Definition folder_of (prefix_value : string) : result string :=
  match py_index (Path.split Path.sep prefix_value) (-2) with
  | Some name => Ok name
  | None => Raise (IndexError "list index out of range")
  end.

Fixpoint add_folders (page : list string) (folders : gset string)
  : result (gset string) :=
  match page with
  | [] => Ok folders
  | p :: rest =>
      match folder_of p with
      | Ok name => add_folders rest (folders ∪ {[ name ]})
      | Raise e => Raise e
      end
  end.

Fixpoint scan_pages (pages : list (list string)) (folders : gset string)
  : result (gset string) :=
  match pages with
  | [] => Ok folders
  | page :: rest =>
      match add_folders page folders with
      | Ok folders' => scan_pages rest folders'
      | Raise e => Raise e
      end
  end.

(** Lines 159-168. *)
Definition list_folders (bucket_name prefix : string) : M (gset string) := fun w =>
  (scan_pages (paginate bucket_name prefix) ∅, w).

End ListFolders.

(** Lines 49-51 of app.py: [[""] + list(list_folders(bucket, prefix + '/'))].
    [list] enumerates the set in an order Python does not fix; here it is
    the order of [elements]. *)
Definition get_iso_list (paginate : string -> string -> list (list string))
    (bucket_name prefix : string) : M (list string) :=
  folders ← list_folders paginate bucket_name (prefix ++ "/");
  mret ("" :: elements folders).


(** ** The vocabulary of the specification *)

(** The raster file found at a path. *)
Definition raster_at (w : world) (path : string) : option raster :=
  match fs w !! path with
  | Some f => match payload f with
              | RasterFile r => Some r
              | Blob _ => None
              end
  | None => None
  end.

(** The Pixel Sample Set as the specification words it: a cell is discarded
    when it is NaN, plus or minus infinity, or equal to the declared no-data
    sentinel. *)
Definition discarded (sentinel : option f64) (x : f64) : bool :=
  match x with
  | S754_nan => true
  | S754_infinity _ => true
  | _ => match sentinel with
         | Some s => F64.eqb x s
         | None => false
         end
  end.

Definition pixel_sample_set (band : list (list f64)) (sentinel : option f64) : list f64 :=
  List.filter (fun x => negb (discarded sentinel x)) (concat band).

Definition is_minimum (v : f64) (sample : list f64) : Prop :=
  In v sample /\ forall x, In x sample -> F64.leb v x = true.

Definition is_maximum (v : f64) (sample : list f64) : Prop :=
  In v sample /\ forall x, In x sample -> F64.leb x v = true.

(** [x] is within [tol] of the decimal [num / den]. *)
Definition near (tol x : f64) (num den : Z) : bool :=
  F64.leb (F64.abs (F64.sub x (F64.div (F64.of_Z num) (F64.of_Z den)))) tol.

(** [sub in s] for strings. *)
Fixpoint contains (sub s : string) : bool :=
  String.prefix sub s ||
  match s with
  | EmptyString => false
  | String _ rest => contains sub rest
  end.

Definition known_method (method : string) : bool :=
  String.eqb method "min_max" || String.eqb method "percent_clip"
  || String.eqb method "std_dev".

(** The request a download sends to the object store. *)
Definition download_request (bucket key dir : string) : string * string * string :=
  (bucket, key, Path.join dir (Path.basename key)).

(** The cached copy is missing or older than 24 hours at the time of the
    call. *)
Definition stale (w : world) (path : string) : bool :=
  match fs w !! path with
  | None => true
  | Some f => F64.ltb (mtime f) (F64.sub (now w) (F64.of_Z 86400))
  end.

(** The world after a download that succeeded, and after one that failed. *)
Definition downloaded (w : world) (bucket key path : string) (c : content) : world :=
  {| fs := <[path := {| mtime := now w; payload := c |}]> (fs w);
     store := store w;
     now := now w;
     requests := requests w ++ [(bucket, key, path)];
     stdout := (stdout w ++ [Line ("Downloading from S3: " ++ key)])
               ++ [Line ("File downloaded to: " ++ path)] |}.

Definition download_failed (w : world) (bucket key path : string) : world :=
  {| fs := fs w;
     store := store w;
     now := now w;
     requests := requests w ++ [(bucket, key, path)];
     stdout := stdout w ++ [Line ("Downloading from S3: " ++ key)] |}.

(** A key whose lexicographic order is the order of the floats. *)
Definition float_key (x : f64) : Z * Z * Z :=
  match x with
  | S754_nan => (0, 0, 0)
  | S754_zero _ => (0, 0, 0)
  | S754_infinity true => (-2, 0, 0)
  | S754_infinity false => (2, 0, 0)
  | S754_finite true m e => (-1, - e, Z.neg m)
  | S754_finite false m e => (1, e, Z.pos m)
  end.

Definition lex_le (a b : Z * Z * Z) : Prop :=
  let '(a1, a2, a3) := a in
  let '(b1, b2, b3) := b in
  a1 < b1 \/ (a1 = b1 /\ (a2 < b2 \/ (a2 = b2 /\ a3 <= b3))).

Definition lex_lt (a b : Z * Z * Z) : Prop :=
  let '(a1, a2, a3) := a in
  let '(b1, b2, b3) := b in
  a1 < b1 \/ (a1 = b1 /\ (a2 < b2 \/ (a2 = b2 /\ a3 < b3))).

Definition no_nan (l : list f64) : Prop := forall x, In x l -> F64.isnan x = false.

(** What [calculate_vmin_vmax] does once the sample is in hand. *)
Definition stretch (sample : list f64) (method : string)
    (percent_clip : f64 * f64) (std_factor : f64) : M (f64 * f64) :=
  if Np.size sample =? 0 then raise (ValueError no_valid_pixels_msg)
  else if String.eqb method "min_max" then
    vmin ← np_min sample; vmax ← np_max sample; mret (vmin, vmax)
  else if String.eqb method "percent_clip" then np_percentile sample percent_clip
  else if String.eqb method "std_dev" then
    mret (F64.sub (Np.mean sample) (F64.mul std_factor (Np.std sample)),
          F64.add (Np.mean sample) (F64.mul std_factor (Np.std sample)))
  else raise (ValueError invalid_method_msg).

(** ** Rasters and worlds for the examples *)

Definition one_band (cells : list (list f64)) (nd : option f64) : raster :=
  {| bands := [cells]; nodata := nd; overview_factors := []; tags := [] |}.

Definition tif : string := "/tmp/session/KEN/Population.tif".

(** One raster file on disk, written at time 1000; the clock reads 2000. *)
Definition world_with (r : raster) : world :=
  {| fs := {[ tif := {| mtime := F64.of_Z 1000; payload := RasterFile r |} ]};
     store := ∅;
     now := F64.of_Z 2000;
     requests := [];
     stdout := [] |}.

(** The values 1, 2, ..., n. *)
Definition ramp (n : nat) : list f64 := map (fun i => F64.of_Z (Z.of_nat i)) (seq 1 n).

Definition cells_1_5_3_9_2 : list f64 := map F64.of_Z [1; 5; 3; 9; 2].
Definition cells_1_nan_inf_5 : list f64 := [F64.of_Z 1; F64.nan; F64.inf; F64.of_Z 5].
Definition cells_8_12 : list f64 := map F64.of_Z [8; 12; 8; 12].

Definition hundredth : f64 := F64.div (F64.of_Z 1) (F64.of_Z 100).
Definition billionth : f64 := F64.div (F64.of_Z 1) (F64.of_Z 1000000000).

(** An empty session directory, the object [a/b/c.tif] in the store, the
    clock at two million seconds. *)
Definition session_dir : string := "/tmp/session/KEN".

Definition fetch_world : world :=
  {| fs := ∅;
     store := {[ ("geo-bucket", "a/b/c.tif") := Blob "II*" ]};
     now := F64.of_Z 2000000;
     requests := [];
     stdout := [] |}.


(** * Proofs *)

(** ** The order of binary64 on values that are not NaN *)

Module F64Order.

Ltac split_compare :=
  repeat match goal with
  | |- context [Z.compare ?a ?b] => destruct (Z.compare_spec a b)
  | |- context [Pos.compare_cont Eq ?a ?b] =>
      change (Pos.compare_cont Eq a b) with (Pos.compare a b);
      destruct (Pos.compare_spec a b)
  end.

Lemma leb_key (x y : f64) :
  F64.isnan x = false -> F64.isnan y = false ->
  (F64.leb x y = true <-> lex_le (float_key x) (float_key y)).
Proof.
  intros Hx Hy. unfold F64.leb, SFleb, SFcompare, lex_le , float_key.
  destruct x as [sx|sx| |sx mx ex], y as [sy|sy| |sy my ey];
    try discriminate; try destruct sx; try destruct sy; cbn;
    split_compare; cbn; split; intros Hgoal; try reflexivity; try discriminate; try lia.
Qed.

Lemma ltb_key (x y : f64) :
  F64.isnan x = false -> F64.isnan y = false ->
  (F64.ltb x y = true <-> lex_lt (float_key x) (float_key y)).
Proof.
  intros Hx Hy. unfold F64.ltb, SFltb, SFcompare, lex_lt , float_key.
  destruct x as [sx|sx| |sx mx ex], y as [sy|sy| |sy my ey];
    try discriminate; try destruct sx; try destruct sy; cbn;
    split_compare; cbn; split; intros Hgoal; try reflexivity; try discriminate; try lia.
Qed.

Lemma leb_refl (x : f64) : F64.isnan x = false -> F64.leb x x = true.
Proof.
  intros Hx. apply leb_key; [assumption..|].
  unfold lex_le. destruct (float_key x) as [[a b] c]. lia.
Qed.

Lemma leb_trans (x y z : f64) :
  F64.isnan x = false -> F64.isnan y = false -> F64.isnan z = false ->
  F64.leb x y = true -> F64.leb y z = true -> F64.leb x z = true.
Proof.
  intros Hx Hy Hz Hxy Hyz.
  apply leb_key in Hxy; [|assumption..]. apply leb_key in Hyz; [|assumption..].
  apply leb_key; [assumption..|].
  unfold lex_le in *.
  destruct (float_key x) as [[a1 a2] a3], (float_key y) as [[b1 b2] b3], (float_key z) as [[c1 c2] c3].
  lia.
Qed.

Lemma ltb_leb (x y : f64) :
  F64.isnan x = false -> F64.isnan y = false ->
  F64.ltb x y = true -> F64.leb x y = true.
Proof.
  intros Hx Hy H. apply ltb_key in H; [|assumption..].
  apply leb_key; [assumption..|]. unfold lex_le, lex_lt in *.
  destruct (float_key x) as [[a1 a2] a3], (float_key y) as [[b1 b2] b3]. lia.
Qed.

Lemma not_ltb_leb (x y : f64) :
  F64.isnan x = false -> F64.isnan y = false ->
  F64.ltb y x = false -> F64.leb x y = true.
Proof.
  intros Hx Hy H. apply leb_key; [assumption..|].
  assert (Hn : ~ lex_lt (float_key y) (float_key x)).
  { intros Hlt. apply ltb_key in Hlt; [|assumption..]. congruence. }
  unfold lex_le, lex_lt in *.
  destruct (float_key x) as [[a1 a2] a3], (float_key y) as [[b1 b2] b3]. lia.
Qed.

End F64Order.

(** ** Facts about the reductions and the sample set *)

Lemma no_nan_cons_inv (x : f64) (l : list f64) :
  no_nan (x :: l) -> F64.isnan x = false /\ no_nan l.
Proof.
  intros H. split; [apply H; now left | intros y Hy; apply H; now right].
Qed.

Lemma fold_minimum_spec (xs : list f64) :
  forall x, no_nan (x :: xs) -> is_minimum (fold_left Np.minimum xs x) (x :: xs).
Proof.
  induction xs as [|a xs IH]; intros x Hn.
  - split; [now left|]. intros y [<-|[]]. apply F64Order.leb_refl, Hn. now left.
  - destruct (no_nan_cons_inv _ _ Hn) as [Hx Hn'].
    destruct (no_nan_cons_inv _ _ Hn') as [Ha Hxs].
    cbn [fold_left].
    set (x' := Np.minimum x a).
    assert (Hx' : F64.isnan x' = false).
    { subst x'. unfold Np.minimum. now destruct (F64.ltb a x). }
    assert (Hle : F64.leb x' x = true /\ F64.leb x' a = true).
    { subst x'. unfold Np.minimum. destruct (F64.ltb a x) eqn:E.
      - split; [now apply F64Order.ltb_leb | now apply F64Order.leb_refl].
      - split; [now apply F64Order.leb_refl | now apply F64Order.not_ltb_leb]. }
    assert (Hn'' : no_nan (x' :: xs)).
    { intros y [<-|Hy]; [assumption | now apply Hxs]. }
    destruct (IH x' Hn'') as [Hin Hlow].
    assert (Hm : F64.isnan (fold_left Np.minimum xs x') = false) by now apply Hn''.
    split.
    + destruct Hin as [Heq|Hin]; [|now right; right].
      rewrite <- Heq. subst x'. unfold Np.minimum.
      destruct (F64.ltb a x); [right; now left | now left].
    + intros y [<-|[<-|Hy]].
      * apply F64Order.leb_trans with x'; try assumption. apply Hlow. now left. tauto.
      * apply F64Order.leb_trans with x'; try assumption. apply Hlow. now left. tauto.
      * apply Hlow. now right.
Qed.

Lemma fold_maximum_spec (xs : list f64) :
  forall x, no_nan (x :: xs) -> is_maximum (fold_left Np.maximum xs x) (x :: xs).
Proof.
  induction xs as [|a xs IH]; intros x Hn.
  - split; [now left|]. intros y [<-|[]]. apply F64Order.leb_refl, Hn. now left.
  - destruct (no_nan_cons_inv _ _ Hn) as [Hx Hn'].
    destruct (no_nan_cons_inv _ _ Hn') as [Ha Hxs].
    cbn [fold_left].
    set (x' := Np.maximum x a).
    assert (Hx' : F64.isnan x' = false).
    { subst x'. unfold Np.maximum. now destruct (F64.ltb x a). }
    assert (Hle : F64.leb x x' = true /\ F64.leb a x' = true).
    { subst x'. unfold Np.maximum. destruct (F64.ltb x a) eqn:E.
      - split; [now apply F64Order.ltb_leb | now apply F64Order.leb_refl].
      - split; [now apply F64Order.leb_refl | now apply F64Order.not_ltb_leb]. }
    assert (Hn'' : no_nan (x' :: xs)).
    { intros y [<-|Hy]; [assumption | now apply Hxs]. }
    destruct (IH x' Hn'') as [Hin Hup].
    assert (Hm : F64.isnan (fold_left Np.maximum xs x') = false) by now apply Hn''.
    split.
    + destruct Hin as [Heq|Hin]; [|now right; right].
      rewrite <- Heq. subst x'. unfold Np.maximum.
      destruct (F64.ltb x a); [right; now left | now left].
    + intros y [<-|[<-|Hy]].
      * apply F64Order.leb_trans with x'; try assumption. tauto. apply Hup. now left.
      * apply F64Order.leb_trans with x'; try assumption. tauto. apply Hup. now left.
      * apply Hup. now right.
Qed.

(** The two masks of the code keep exactly the cells the specification
    keeps. *)
Lemma valid_data_sample_set (band : list (list f64)) (nd : option f64) :
  valid_data band nd = pixel_sample_set band nd.
Proof.
  unfold valid_data, pixel_sample_set.
  induction (concat band) as [|x l IH]; [now destruct nd|].
  destruct nd as [s|]; cbn [List.filter] in *.
  - destruct x as [sx|sx| |sx mx ex]; cbn; try exact IH;
      rewrite IH; reflexivity.
  - destruct x as [sx|sx| |sx mx ex]; cbn; now rewrite ?IH.
Qed.

Lemma sample_no_nan (band : list (list f64)) (nd : option f64) :
  no_nan (pixel_sample_set band nd).
Proof.
  intros x Hx. apply filter_In in Hx as [_ Hx]. now destruct x.
Qed.

(** A band whose every cell equals the declared sentinel has no sample. *)
Lemma all_sentinel_empty (band : list (list f64)) (s : f64) :
  (forall x, In x (concat band) -> F64.eqb x s = true) ->
  pixel_sample_set band (Some s) = [].
Proof.
  unfold pixel_sample_set. induction (concat band) as [|x l IH]; intros H; [reflexivity|].
  cbn [List.filter].
  assert (Hx : discarded (Some s) x = true).
  { specialize (H x (or_introl eq_refl)). destruct x; cbn; trivial. }
  rewrite Hx. cbn. apply IH. intros y Hy. apply H. now right.
Qed.

Lemma calculate_on_sample (w : world) (path : string) (r : raster)
    (band : list (list f64)) (rest : list (list (list f64)))
    (method : string) (pc : f64 * f64) (k : f64) :
  raster_at w path = Some r ->
  bands r = band :: rest ->
  calculate_vmin_vmax path method pc k w
  = stretch (pixel_sample_set band (nodata r)) method pc k w.
Proof.
  intros Hr Hb. unfold calculate_vmin_vmax, stretch, raster_at, rasterio_open in *.
  unfold mbind, M_bind. destruct (fs w !! path) as [[mt [r'|b]]|]; try discriminate.
  cbn in Hr. injection Hr as ->. unfold read_band1. rewrite Hb.
  cbn. now rewrite valid_data_sample_set.
Qed.

Lemma size_zero_iff (l : list f64) : (Np.size l =? 0) = true <-> l = [].
Proof.
  unfold Np.size. destruct l; cbn; split; intros; try reflexivity; try discriminate; lia.
Qed.

Lemma size_nonempty (l : list f64) : l <> [] -> (Np.size l =? 0) = false.
Proof.
  intros H. destruct (Np.size l =? 0) eqn:E; [|reflexivity].
  apply size_zero_iff in E. contradiction.
Qed.

Lemma stretch_world (sample : list f64) (method : string) (pc : f64 * f64)
    (k : f64) (w : world) :
  snd (stretch sample method pc k w) = w.
Proof.
  unfold stretch, np_min, np_max, np_percentile, mbind, M_bind.
  destruct (Np.size sample =? 0); [reflexivity|].
  destruct (String.eqb method "min_max").
  { destruct (Np.min sample); [|reflexivity]. cbn.
    destruct (Np.max sample); reflexivity. }
  destruct (String.eqb method "percent_clip").
  { destruct (Np.percentile sample pc); reflexivity. }
  destruct (String.eqb method "std_dev"); reflexivity.
Qed.

Lemma known_method_false (method : string) :
  known_method method = false ->
  String.eqb method "min_max" = false
  /\ String.eqb method "percent_clip" = false
  /\ String.eqb method "std_dev" = false.
Proof.
  unfold known_method. intros H.
  apply orb_false_elim in H as [H H3]. apply orb_false_elim in H as [H1 H2]. auto.
Qed.

Lemma stretch_empty (method : string) (pc : f64 * f64) (k : f64) (w : world) :
  stretch [] method pc k w = (Raise (ValueError no_valid_pixels_msg), w).
Proof. reflexivity. Qed.

Lemma stretch_min_max (sample : list f64) (pc : f64 * f64) (k : f64) (w : world) :
  sample <> [] -> no_nan sample ->
  exists vmin vmax,
    stretch sample "min_max" pc k w = (Ok (vmin, vmax), w)
    /\ is_minimum vmin sample /\ is_maximum vmax sample.
Proof.
  intros Hne Hnan. destruct sample as [|x xs]; [contradiction|].
  exists (fold_left Np.minimum xs x), (fold_left Np.maximum xs x).
  split; [|split].
  - unfold stretch. rewrite size_nonempty by assumption. reflexivity.
  - now apply fold_minimum_spec.
  - now apply fold_maximum_spec.
Qed.

(** ** The stretch calculator *)

(** C2: on a raster whose Pixel Sample Set is not empty, method 'min_max'
    returns the minimum and the maximum of the sample set and leaves the
    world as it was; a band holding 1, 5, 3, 9, 2 with no sentinel gives
    (1, 9), and a band holding 1, NaN, Infinity, 5 with no sentinel gives
    (1, 5). *)
Theorem min_max_returns_sample_range
    (w : world) (path : string) (r : raster)
    (band : list (list f64)) (rest : list (list (list f64)))
    (pc : f64 * f64) (k : f64) :
  raster_at w path = Some r ->
  bands r = band :: rest ->
  (pixel_sample_set band (nodata r) <> [] ->
   exists vmin vmax,
     calculate_vmin_vmax path "min_max" pc k w = (Ok (vmin, vmax), w)
     /\ is_minimum vmin (pixel_sample_set band (nodata r))
     /\ is_maximum vmax (pixel_sample_set band (nodata r)))
  /\ (nodata r = None -> concat band = cells_1_5_3_9_2 ->
      calculate_vmin_vmax path "min_max" pc k w = (Ok (F64.of_Z 1, F64.of_Z 9), w))
  /\ (nodata r = None -> concat band = cells_1_nan_inf_5 ->
      calculate_vmin_vmax path "min_max" pc k w = (Ok (F64.of_Z 1, F64.of_Z 5), w)).
Proof.
  intros Hr Hb. rewrite (calculate_on_sample _ _ _ _ _ _ _ _ Hr Hb).
  split; [|split].
  - intros Hne. apply stretch_min_max; [assumption | apply sample_no_nan].
  - intros Hnd Hc. unfold pixel_sample_set. rewrite Hnd, Hc. reflexivity.
  - intros Hnd Hc. unfold pixel_sample_set. rewrite Hnd, Hc. reflexivity.
Qed.

Lemma min_max_returns_sample_range_witness :
  calculate_vmin_vmax tif "min_max" default_percent_clip default_std_factor
    (world_with (one_band [cells_1_5_3_9_2] None))
  = (Ok (F64.of_Z 1, F64.of_Z 9), world_with (one_band [cells_1_5_3_9_2] None)).
Proof.
  apply (min_max_returns_sample_range
           (world_with (one_band [cells_1_5_3_9_2] None)) tif
           (one_band [cells_1_5_3_9_2] None) [cells_1_5_3_9_2] []);
    reflexivity.
Defined.

(** C3: on a raster whose Pixel Sample Set is empty, in particular one whose
    every cell equals the declared sentinel, the call raises the ValueError
    "No valid pixel values found in the raster." whatever the method and its
    parameters, and so returns no pair. *)
Theorem empty_sample_raises
    (w : world) (path : string) (r : raster)
    (band : list (list f64)) (rest : list (list (list f64)))
    (method : string) (pc : f64 * f64) (k : f64) :
  raster_at w path = Some r ->
  bands r = band :: rest ->
  (pixel_sample_set band (nodata r) = [] ->
   calculate_vmin_vmax path method pc k w
   = (Raise (ValueError no_valid_pixels_msg), w)
   /\ forall v w', calculate_vmin_vmax path method pc k w <> (Ok v, w'))
  /\ (forall s, nodata r = Some s ->
      (forall x, In x (concat band) -> F64.eqb x s = true) ->
      calculate_vmin_vmax path method pc k w
      = (Raise (ValueError no_valid_pixels_msg), w)).
Proof.
  intros Hr Hb. rewrite (calculate_on_sample _ _ _ _ _ _ _ _ Hr Hb).
  split.
  - intros ->. rewrite stretch_empty. split; [reflexivity | discriminate].
  - intros s Hs Hall. rewrite Hs, (all_sentinel_empty _ _ Hall). apply stretch_empty.
Qed.

Lemma empty_sample_raises_witness :
  calculate_vmin_vmax tif "min_max" default_percent_clip default_std_factor
    (world_with (one_band [map F64.of_Z [7; 7]; map F64.of_Z [7; 7]] (Some (F64.of_Z 7))))
  = (Raise (ValueError no_valid_pixels_msg),
     world_with (one_band [map F64.of_Z [7; 7]; map F64.of_Z [7; 7]] (Some (F64.of_Z 7)))).
Proof.
  apply (empty_sample_raises
           (world_with (one_band [map F64.of_Z [7; 7]; map F64.of_Z [7; 7]]
                          (Some (F64.of_Z 7)))) tif
           (one_band [map F64.of_Z [7; 7]; map F64.of_Z [7; 7]] (Some (F64.of_Z 7)))
           [map F64.of_Z [7; 7]; map F64.of_Z [7; 7]] []);
    reflexivity.
Defined.



(** C7: on a raster whose Pixel Sample Set is not empty, a method other than
    'min_max', 'percent_clip' and 'std_dev' raises a ValueError whose message
    names the three accepted methods; no range is returned. *)
Theorem unknown_method_raises
    (w : world) (path : string) (r : raster)
    (band : list (list f64)) (rest : list (list (list f64)))
    (method : string) (pc : f64 * f64) (k : f64) :
  raster_at w path = Some r ->
  bands r = band :: rest ->
  pixel_sample_set band (nodata r) <> [] ->
  known_method method = false ->
  calculate_vmin_vmax path method pc k w = (Raise (ValueError invalid_method_msg), w)
  /\ contains "'min_max'" invalid_method_msg = true
  /\ contains "'percent_clip'" invalid_method_msg = true
  /\ contains "'std_dev'" invalid_method_msg = true.
Proof.
  intros Hr Hb Hne Hm. split; [|repeat split].
  rewrite (calculate_on_sample _ _ _ _ _ _ _ _ Hr Hb).
  destruct (known_method_false _ Hm) as (H1 & H2 & H3).
  unfold stretch. rewrite size_nonempty, H1, H2, H3 by assumption. reflexivity.
Qed.

Lemma unknown_method_raises_witness :
  calculate_vmin_vmax tif "histogram" default_percent_clip default_std_factor
    (world_with (one_band [cells_1_5_3_9_2] None))
  = (Raise (ValueError invalid_method_msg),
     world_with (one_band [cells_1_5_3_9_2] None)).
Proof.
  apply (unknown_method_raises
           (world_with (one_band [cells_1_5_3_9_2] None)) tif
           (one_band [cells_1_5_3_9_2] None) [cells_1_5_3_9_2] []);
    first [reflexivity | discriminate].
Defined.

(** C10: the empty-sample check comes before the method check: on a raster
    whose Pixel Sample Set is empty, an unrecognized method raises the
    no-valid-pixel-values ValueError, which is not the unknown-method one. *)
Theorem empty_sample_precedes_method_check
    (w : world) (path : string) (r : raster)
    (band : list (list f64)) (rest : list (list (list f64)))
    (method : string) (pc : f64 * f64) (k : f64) :
  raster_at w path = Some r ->
  bands r = band :: rest ->
  pixel_sample_set band (nodata r) = [] ->
  known_method method = false ->
  calculate_vmin_vmax path method pc k w = (Raise (ValueError no_valid_pixels_msg), w)
  /\ calculate_vmin_vmax path method pc k w <> (Raise (ValueError invalid_method_msg), w).
Proof.
  intros Hr Hb He _.
  rewrite (calculate_on_sample _ _ _ _ _ _ _ _ Hr Hb), He, stretch_empty.
  split; [reflexivity | discriminate].
Qed.

Lemma empty_sample_precedes_method_check_witness :
  calculate_vmin_vmax tif "histogram" default_percent_clip default_std_factor
    (world_with (one_band [[F64.nan; F64.of_Z 7]] (Some (F64.of_Z 7))))
  = (Raise (ValueError no_valid_pixels_msg),
     world_with (one_band [[F64.nan; F64.of_Z 7]] (Some (F64.of_Z 7)))).
Proof.
  apply (empty_sample_precedes_method_check
           (world_with (one_band [[F64.nan; F64.of_Z 7]] (Some (F64.of_Z 7)))) tif
           (one_band [[F64.nan; F64.of_Z 7]] (Some (F64.of_Z 7)))
           [[F64.nan; F64.of_Z 7]] []);
    reflexivity.
Defined.

(** C8: a call of [calculate_vmin_vmax] leaves the whole world as it found
    it, whatever its arguments and outcome: every file, the raster read
    included, has the same contents and time stamp afterwards, nothing is
    requested from the object store and nothing is printed. *)
Theorem calculate_vmin_vmax_reads_only
    (path method : string) (pc : f64 * f64) (k : f64) (w : world) :
  snd (calculate_vmin_vmax path method pc k w) = w
  /\ fs (snd (calculate_vmin_vmax path method pc k w)) !! path = fs w !! path.
Proof.
  assert (E : snd (calculate_vmin_vmax path method pc k w) = w).
  { unfold calculate_vmin_vmax, rasterio_open, read_band1, mbind, M_bind.
    destruct (fs w !! path) as [[mt [r|b]]|]; try reflexivity.
    destruct (bands r) as [|band rest]; [reflexivity|].
    cbn. apply (stretch_world (valid_data band (nodata r)) method pc k w). }
  split; [exact E | now rewrite E].
Qed.

(** Unlike the calculator, the overview step of [visualize_raster] writes to
    the raster file. *)
Lemma overviews_step_writes :
  fs (snd (overviews_step tif true [2; 4] (world_with (one_band [cells_8_12] None))))
  !! tif
  <> fs (world_with (one_band [cells_8_12] None)) !! tif.
Proof. vm_compute. discriminate. Qed.

Lemma ramp_percent_clip_value :
  calculate_vmin_vmax tif "percent_clip" default_percent_clip default_std_factor
    (world_with (one_band [ramp 100] None))
  = (Ok (F64.div (F64.of_Z 298) (F64.of_Z 100), F64.div (F64.of_Z 9802) (F64.of_Z 100)),
     world_with (one_band [ramp 100] None)).
Proof. vm_compute. reflexivity. Qed.

Lemma far_from_99_02 :
  near hundredth (F64.div (F64.of_Z 9802) (F64.of_Z 100)) 9902 100 = false.
Proof. vm_compute. reflexivity. Qed.

(** C5, as stated, fails on the values 1..100 with percent_clip = (2, 98):
    the pair returned is not within a hundredth of (2.98, 99.02). *)
Lemma percent_clip_ramp_not_99_02 :
  ~ (exists lo hi,
       calculate_vmin_vmax tif "percent_clip" default_percent_clip default_std_factor
         (world_with (one_band [ramp 100] None))
       = (Ok (lo, hi), world_with (one_band [ramp 100] None))
       /\ near hundredth lo 298 100 = true
       /\ near hundredth hi 9902 100 = true).
Proof.
  intros (lo & hi & H & _ & Hhi).
  rewrite ramp_percent_clip_value in H.
  assert (Hh : F64.div (F64.of_Z 9802) (F64.of_Z 100) = hi).
  { exact (f_equal (fun x => match fst x with Ok v => snd v | Raise _ => hi end) H). }
  rewrite <- Hh, far_from_99_02 in Hhi. discriminate.
Qed.

(** C5, amended: on a raster whose Pixel Sample Set is not empty, method
    'percent_clip' returns what [np.percentile] (linear interpolation) gives
    for the sample set and the two requested percentiles; for the values
    1..100 and percent_clip = (2, 98) that is the pair of floats nearest to
    2.98 and 98.02. *)
Theorem percent_clip_returns_percentiles
    (w : world) (path : string) (r : raster)
    (band : list (list f64)) (rest : list (list (list f64)))
    (pc : f64 * f64) (k : f64) :
  raster_at w path = Some r ->
  bands r = band :: rest ->
  pixel_sample_set band (nodata r) <> [] ->
  let sample := pixel_sample_set band (nodata r) in
  calculate_vmin_vmax path "percent_clip" pc k w = np_percentile sample pc w
  /\ (forall lo hi, Np.percentile sample pc = Np.Percentiles lo hi ->
      calculate_vmin_vmax path "percent_clip" pc k w = (Ok (lo, hi), w))
  /\ (nodata r = None -> concat band = ramp 100 -> pc = default_percent_clip ->
      exists lo hi,
        calculate_vmin_vmax path "percent_clip" pc k w = (Ok (lo, hi), w)
        /\ lo = F64.div (F64.of_Z 298) (F64.of_Z 100)
        /\ hi = F64.div (F64.of_Z 9802) (F64.of_Z 100)
        /\ near billionth lo 298 100 = true
        /\ near billionth hi 9802 100 = true).
Proof.
  intros Hr Hb Hne sample.
  assert (E : calculate_vmin_vmax path "percent_clip" pc k w = np_percentile sample pc w).
  { rewrite (calculate_on_sample _ _ _ _ _ _ _ _ Hr Hb). fold sample.
    unfold stretch. rewrite size_nonempty by assumption. reflexivity. }
  split; [exact E|]. split.
  - intros lo hi Hp. rewrite E. unfold np_percentile. now rewrite Hp.
  - intros Hnd Hc ->. rewrite E. subst sample. unfold pixel_sample_set.
    rewrite Hnd, Hc.
    exists (F64.div (F64.of_Z 298) (F64.of_Z 100)), (F64.div (F64.of_Z 9802) (F64.of_Z 100)).
    split; [vm_compute; reflexivity|].
    split; [reflexivity|]. split; [reflexivity|].
    split; vm_compute; reflexivity.
Qed.

Lemma percent_clip_returns_percentiles_witness :
  exists lo hi,
    calculate_vmin_vmax tif "percent_clip" default_percent_clip default_std_factor
      (world_with (one_band [ramp 100] None))
    = (Ok (lo, hi), world_with (one_band [ramp 100] None))
    /\ lo = F64.div (F64.of_Z 298) (F64.of_Z 100)
    /\ hi = F64.div (F64.of_Z 9802) (F64.of_Z 100)
    /\ near billionth lo 298 100 = true
    /\ near billionth hi 9802 100 = true.
Proof.
  apply (percent_clip_returns_percentiles
           (world_with (one_band [ramp 100] None)) tif
           (one_band [ramp 100] None) [ramp 100] []);
    first [reflexivity | discriminate].
Defined.

(** ** [visualize_raster] *)

(** With no range supplied the range is computed and the layer rendered with
    it. *)
Lemma visualize_raster_default_renders :
  exists m,
    fst (visualize_raster tif None "binary" None None false [2; 4]
           (world_with (one_band [cells_8_12] None))) = Ok m
    /\ layers m
       = [RasterLayer tif "Population"
            {| indexes := [1]; vp_vmin := F64.of_Z 6; vp_vmax := F64.of_Z 14;
               opacity := F64.of_Z 1; colormap := "binary" |}].
Proof. eexists. split; vm_compute; reflexivity. Qed.

(** C9: when both vmin and vmax are supplied, the branch binding [v_min] and
    [v_max] is skipped, building the visualization parameters raises
    UnboundLocalError (a NameError) on [v_min], and the call never returns a
    map: its outcome does not depend on the supplied values, and any other
    failure comes from the overview step that runs before. *)
Theorem supplied_range_is_never_used
    (img : string) (ln : option string) (cm : string) (a b : f64)
    (flag : bool) (levels : list Z) (w : world) :
  let out := visualize_raster img ln cm (Some a) (Some b) flag levels w in
  assign_range img (Some a) (Some b) w = (Ok (None, None), w)
  /\ (forall m name w',
        render m img name cm (None, None) w' = (Raise (UnboundLocalError "v_min"), w'))
  /\ is_NameError (UnboundLocalError "v_min") = true
  /\ (forall lm, fst out <> Ok lm)
  /\ (forall a' b', visualize_raster img ln cm (Some a') (Some b') flag levels w = out)
  /\ (flag = false -> out = (Raise (UnboundLocalError "v_min"), w))
  /\ (forall e, fst out = Raise e ->
        e = UnboundLocalError "v_min"
        \/ (flag = true /\ fst (overviews_step img flag levels w) = Raise e)).
Proof.
  intros out. subst out.
  unfold visualize_raster, mbind, M_bind. cbn [assign_range is_none orb mret M_ret].
  repeat split; try reflexivity.
  - intros lm. destruct (overviews_step img flag levels w) as [[u|e] w1]; discriminate.
  - intros ->. reflexivity.
  - intros e. destruct flag; [|cbn; intros [= <-]; now left].
    destruct (overviews_step img true levels w) as [[u|e'] w1]; cbn.
    + intros [= <-]. now left.
    + intros [= <-]. right. now split.
Qed.

Lemma supplied_range_is_never_used_witness :
  visualize_raster tif None "binary" (Some (F64.of_Z 0)) (Some (F64.of_Z 255))
    false [2; 4; 8; 16; 32; 64] (world_with (one_band [cells_8_12] None))
  = (Raise (UnboundLocalError "v_min"), world_with (one_band [cells_8_12] None)).
Proof.
  apply (supplied_range_is_never_used tif None "binary" (F64.of_Z 0) (F64.of_Z 255)
           false [2; 4; 8; 16; 32; 64] (world_with (one_band [cells_8_12] None))).
  reflexivity.
Defined.

(** ** Paths *)

Module PathFacts.
Import Path.

Lemma split_nonempty (c : ascii) (s : string) : split c s <> [].
Proof.
  destruct s as [|d rest]; cbn; [discriminate|].
  destruct (Ascii.eqb d c); [discriminate|]. destruct (split c rest); discriminate.
Qed.

Lemma split_without (c : ascii) (s : string) :
  has_char c s = false -> split c s = [s].
Proof.
  induction s as [|d rest IH]; cbn; [reflexivity|].
  intros H. apply orb_false_elim in H as [Hd Hr]. rewrite Hd, (IH Hr). reflexivity.
Qed.

Lemma split_with (c : ascii) (s : string) :
  has_char c s = true -> exists h t, split c s = h :: t /\ t <> [].
Proof.
  induction s as [|d rest IH]; cbn; [discriminate|].
  destruct (Ascii.eqb d c) eqn:Hd; cbn.
  - intros _. exists "", (split c rest). split; [reflexivity | apply split_nonempty].
  - intros Hr. destruct (IH Hr) as (h & t & -> & Ht).
    exists (String d h), t. now split.
Qed.

Lemma last_skip {A : Type} (x : A) (l : list A) (d : A) :
  l <> [] -> List.last (x :: l) d = List.last l d.
Proof. destruct l; [contradiction | reflexivity]. Qed.

Lemma segments_without (c : ascii) (s : string) :
  forall seg, In seg (split c s) -> has_char c seg = false.
Proof.
  induction s as [|d rest IH]; cbn.
  - intros seg [<-|[]]. reflexivity.
  - destruct (Ascii.eqb d c) eqn:Hd.
    + intros seg [<-|Hin]; [reflexivity | now apply IH].
    + destruct (split c rest) as [|h t] eqn:Hs.
      * intros seg [<-|[]]. cbn. now rewrite Hd.
      * intros seg [<-|Hin].
        -- cbn. rewrite Hd. apply IH. now left.
        -- apply IH. now right.
Qed.

Lemma last_in {A : Type} (l : list A) (d : A) : l <> [] -> In (List.last l d) l.
Proof.
  induction l as [|x l IH]; [contradiction|]. intros _.
  destruct l as [|y l]; [now left|]. right. apply IH. discriminate.
Qed.

Lemma last_segment_without_sep (key : string) :
  has_char sep (last_segment key) = false.
Proof.
  apply (segments_without sep key). apply last_in, split_nonempty.
Qed.

(** [rfind] finds the start of the last segment. *)
Lemma rfind_from_spec (c : ascii) (s : string) :
  forall i last,
    (has_char c s = false /\ rfind_from c s i last = last)
    \/ (has_char c s = true
        /\ i <= rfind_from c s i last
        /\ drop_chars (Z.to_nat (rfind_from c s i last - i + 1)) s
           = List.last (split c s) "").
Proof.
  induction s as [|d rest IH]; intros i last; cbn [rfind_from has_char split].
  - left. now split.
  - destruct (IH (i + 1) (if Ascii.eqb d c then i else last)) as [[Hno Hr]|(Hyes & Hge & Hdrop)].
    + rewrite Hr, Hno. destruct (Ascii.eqb d c) eqn:Hd; cbn [orb].
      * right. split; [reflexivity|]. split; [lia|].
        replace (i - i + 1) with 1 by lia. cbn.
        rewrite (split_without _ _ Hno). reflexivity.
      * left. now split.
    + right. rewrite Hyes, orb_true_r. split; [reflexivity|]. split; [lia|].
      set (r := rfind_from c rest (i + 1) (if Ascii.eqb d c then i else last)) in *.
      replace (Z.to_nat (r - i + 1)) with (S (Z.to_nat (r - (i + 1) + 1))) by lia.
      cbn [drop_chars]. rewrite Hdrop.
      destruct (split_with _ _ Hyes) as (h & t & Hs & Ht). rewrite Hs.
      destruct (Ascii.eqb d c).
      * symmetry. apply last_skip. discriminate.
      * now rewrite !(last_skip _ t) by assumption.
Qed.

Lemma basename_last_segment (key : string) : basename key = last_segment key.
Proof.
  unfold basename, last_segment, rfind.
  destruct (rfind_from_spec sep key 0 (-1)) as [[Hno Hr]|(_ & _ & Hdrop)].
  - rewrite Hr, (split_without _ _ Hno). reflexivity.
  - rewrite <- Hdrop. f_equal. lia.
Qed.

Lemma startswith_sep_has (s : string) : startswith_sep s = true -> has_char sep s = true.
Proof. destruct s; cbn; [discriminate|]. intros ->. reflexivity. Qed.

(** Joining a directory and a segment without slash appends the segment,
    after a slash unless the directory is empty or already ends with one. *)
Lemma join_segment (dir seg : string) :
  has_char sep seg = false ->
  join dir seg
  = if (String.eqb dir "" || endswith_sep dir)%bool then dir ++ seg
    else dir ++ "/" ++ seg.
Proof.
  intros H. unfold join.
  destruct (startswith_sep seg) eqn:E; [|reflexivity].
  apply startswith_sep_has in E. congruence.
Qed.

End PathFacts.

(** ** The local cache fetcher *)

Lemma download_cases (bucket key dir : string) (w : world) :
  download_from_s3 bucket key dir w
  = let path := Path.join dir (Path.basename key) in
    if stale w path then
      match store w !! (bucket, key) with
      | Some c => (Ok path, downloaded w bucket key path c)
      | None => (Raise (ClientError bucket key), download_failed w bucket key path)
      end
    else (Ok path, w).
Proof.
  unfold download_from_s3, stale, exists_, getmtime, datetime_now_timestamp,
    s3_download_file, print, boto3_client, mbind, M_bind, mret, M_ret.
  change (F64.of_Z (24 * 3600)) with (F64.of_Z 86400).
  generalize (F64.of_Z 86400) as day. intros day.
  cbv zeta. destruct (fs w !! Path.join dir (Path.basename key)) as [f|] eqn:Hf;
    cbv beta iota delta [negb].
  - rewrite Hf. cbv beta iota.
    destruct (F64.ltb (mtime f) (F64.sub (now w) day)); [|reflexivity].
    cbn [fs store now requests stdout set_fs].
    destruct (store w !! (bucket, key)); reflexivity.
  - cbn [fs store now requests stdout set_fs].
    destruct (store w !! (bucket, key)); reflexivity.
Qed.

Lemma app_one_neq {A : Type} (l : list A) (x : A) : (l ++ [x])%list <> l.
Proof.
  intros H. apply (f_equal (@length A)) in H. rewrite length_app in H. cbn in H. lia.
Qed.

(** C1: [download_from_s3] sends a download request exactly when no file is
    at the local path or that file's time stamp is older than now minus 24
    hours; otherwise it returns the path and leaves the world untouched, so
    a second call with the same arguments inside the freshness window sends
    no request. *)
Theorem download_iff_stale (bucket key dir : string) (w : world) :
  let path := Path.join dir (Path.basename key) in
  let out := download_from_s3 bucket key dir w in
  (stale w path = true
   <-> fs w !! path = None
       \/ exists f, fs w !! path = Some f
                    /\ F64.ltb (mtime f) (F64.sub (now w) (F64.of_Z 86400)) = true)
  /\ (requests (snd out) = (requests w ++ [download_request bucket key dir])%list
      <-> stale w path = true)
  /\ (stale w path = false -> out = (Ok path, w))
  /\ (stale w path = true -> forall c, store w !! (bucket, key) = Some c ->
      out = (Ok path, downloaded w bucket key path c))
  /\ (forall p w1, out = (Ok p, w1) ->
      forall t2, stale (set_now w1 t2) path = false ->
      download_from_s3 bucket key dir (set_now w1 t2) = (Ok p, set_now w1 t2)).
Proof.
  intros path out. subst out. rewrite download_cases. fold path. cbn zeta.
  split; [|split; [|split; [|split]]].
  - unfold stale. destruct (fs w !! path) as [f|].
    + split.
      * intros H. right. now exists f.
      * intros [H|(f' & [= <-] & H)]; [discriminate | assumption].
    + split; [now left | reflexivity].
  - unfold download_request. fold path. destruct (stale w path).
    + split; [reflexivity|]. intros _.
      destruct (store w !! (bucket, key)); reflexivity.
    + cbn. split; [|discriminate]. intros H. symmetry in H.
      now apply app_one_neq in H.
  - intros ->. reflexivity.
  - intros -> c ->. reflexivity.
  - intros p w1 H t2 Hfresh. rewrite download_cases. fold path. cbn zeta.
    rewrite Hfresh. destruct (stale w path).
    + destruct (store w !! (bucket, key)); [|discriminate].
      now injection H as <- _.
    + now injection H as <- _.
Qed.

Lemma download_iff_stale_witness :
  download_from_s3 "geo-bucket" "a/b/c.tif" session_dir fetch_world
  = (Ok "/tmp/session/KEN/c.tif",
     downloaded fetch_world "geo-bucket" "a/b/c.tif" "/tmp/session/KEN/c.tif" (Blob "II*"))
  /\ download_from_s3 "geo-bucket" "a/b/c.tif" session_dir
       (set_now (downloaded fetch_world "geo-bucket" "a/b/c.tif"
                   "/tmp/session/KEN/c.tif" (Blob "II*"))
                (F64.of_Z 2003600))
     = (Ok "/tmp/session/KEN/c.tif",
        set_now (downloaded fetch_world "geo-bucket" "a/b/c.tif"
                   "/tmp/session/KEN/c.tif" (Blob "II*"))
                (F64.of_Z 2003600)).
Proof.
  destruct (download_iff_stale "geo-bucket" "a/b/c.tif" session_dir fetch_world)
    as (_ & _ & _ & Hdown & Hagain).
  assert (H1 : download_from_s3 "geo-bucket" "a/b/c.tif" session_dir fetch_world
               = (Ok "/tmp/session/KEN/c.tif",
                  downloaded fetch_world "geo-bucket" "a/b/c.tif"
                    "/tmp/session/KEN/c.tif" (Blob "II*"))).
  { apply Hdown; reflexivity. }
  split; [exact H1|].
  apply (Hagain _ _ H1). vm_compute. reflexivity.
Defined.

(** C6: the path [download_from_s3] returns is the destination directory
    joined with the final slash-delimited segment of the key; it does not
    depend on the bucket or on the state of the world, so repeated calls
    return the same path; for the key "a/b/c.tif" it is the file c.tif in the
    directory. The only other outcome is the object store's error. *)
Theorem local_path_is_deterministic (bucket key dir : string) (w : world) :
  let path := Path.join dir (Path.last_segment key) in
  let out := download_from_s3 bucket key dir w in
  (fst out = Ok path \/ fst out = Raise (ClientError bucket key))
  /\ (forall p, fst out = Ok p -> p = path)
  /\ (forall bucket' w' p p',
        fst out = Ok p -> fst (download_from_s3 bucket' key dir w') = Ok p' -> p' = p)
  /\ (dir <> "" -> Path.endswith_sep dir = false ->
      path = dir ++ "/" ++ Path.last_segment key)
  /\ (Path.endswith_sep dir = true -> path = dir ++ Path.last_segment key)
  /\ (key = "a/b/c.tif" ->
      path = Path.join dir "c.tif"
      /\ (dir <> "" -> Path.endswith_sep dir = false -> path = dir ++ "/c.tif")).
Proof.
  intros path out.
  assert (Hout : forall b v, fst (download_from_s3 b key dir v) = Ok path
                             \/ fst (download_from_s3 b key dir v) = Raise (ClientError b key)).
  { intros b v. rewrite download_cases, PathFacts.basename_last_segment. fold path.
    cbn zeta. destruct (stale v path); [|now left].
    destruct (store v !! (b, key)); [now left | now right]. }
  assert (Hjoin : path = if (String.eqb dir "" || Path.endswith_sep dir)%bool
                         then dir ++ Path.last_segment key
                         else dir ++ "/" ++ Path.last_segment key).
  { apply PathFacts.join_segment, PathFacts.last_segment_without_sep. }
  assert (Hlit : dir <> "" -> Path.endswith_sep dir = false ->
                 path = dir ++ "/" ++ Path.last_segment key).
  { intros Hd He. rewrite Hjoin, He. apply String.eqb_neq in Hd. now rewrite Hd. }
  split; [apply Hout|]. split; [|split; [|split; [|split]]].
  - intros p Hp. subst out. destruct (Hout bucket w) as [H|H]; congruence.
  - intros b' w' p p' Hp Hp'. subst out.
    destruct (Hout bucket w) as [H|H], (Hout b' w') as [H'|H']; congruence.
  - exact Hlit.
  - intros He. rewrite Hjoin, He, orb_true_r. reflexivity.
  - intros ->. split; [reflexivity|]. intros Hd He. now rewrite (Hlit Hd He).
Qed.

Lemma local_path_is_deterministic_witness :
  fst (download_from_s3 "geo-bucket" "a/b/c.tif" session_dir fetch_world)
  = Ok "/tmp/session/KEN/c.tif"
  /\ Path.join session_dir (Path.last_segment "a/b/c.tif") = session_dir ++ "/c.tif".
Proof.
  destruct (local_path_is_deterministic "geo-bucket" "a/b/c.tif" session_dir fetch_world)
    as (_ & _ & _ & _ & _ & Hkey).
  split; [reflexivity|].
  apply Hkey; [reflexivity | discriminate | reflexivity].
Defined.

(** * Further properties of src/utils.py *)

(** ** More on paths *)

Module PathMore.
Import Path PathFacts.

Lemma last_app_nonempty {A : Type} (l1 l2 : list A) (d : A) :
  l2 <> [] -> List.last (l1 ++ l2)%list d = List.last l2 d.
Proof.
  intros H. induction l1 as [|x l1 IH]; [reflexivity|].
  cbn [app]. rewrite last_skip; [exact IH|].
  destruct l1; [exact H | discriminate].
Qed.

Lemma append_empty_l (s : string) : "" ++ s = s.
Proof. reflexivity. Qed.

Lemma append_cons (d : ascii) (a s : string) : String d a ++ s = String d (a ++ s).
Proof. reflexivity. Qed.

(** Splitting after an occurrence of the separator ends with the split of
    what follows it. *)
Lemma split_after_sep (c : ascii) (a b : string) :
  exists h pre, split c (a ++ String c b) = (h :: pre ++ split c b)%list.
Proof.
  induction a as [|d a IH].
  - rewrite append_empty_l. cbn [split]. rewrite Ascii.eqb_refl. now exists "", [].
  - rewrite append_cons. cbn [split].
    destruct IH as (h & pre & ->). destruct (Ascii.eqb d c).
    + now exists "", (h :: pre).
    + now exists (String d h), pre.
Qed.

Lemma last_segment_after_sep (a b : string) :
  last_segment (a ++ String sep b) = last_segment b.
Proof.
  unfold last_segment. destruct (split_after_sep sep a b) as (h & pre & ->).
  change (h :: pre ++ split sep b)%list with ((h :: pre) ++ split sep b)%list.
  apply last_app_nonempty, split_nonempty.
Qed.

Lemma last_segment_plain (s : string) : has_char sep s = false -> last_segment s = s.
Proof. intros H. unfold last_segment. now rewrite (split_without _ _ H). Qed.

Lemma endswith_sep_inv (s : string) :
  endswith_sep s = true -> exists a, s = a ++ String sep "".
Proof.
  induction s as [|d s IH]; [discriminate|].
  destruct s as [|e s].
  - cbn. intros H. apply Ascii.eqb_eq in H as ->. now exists "".
  - intros H. destruct (IH H) as (a & Ha). exists (String d a).
    rewrite append_cons. now rewrite <- Ha.
Qed.

Lemma append_assoc (a b c : string) : (a ++ b) ++ c = a ++ (b ++ c).
Proof.
  induction a as [|d a IH]; [reflexivity|]. rewrite !append_cons. now rewrite IH.
Qed.

(** The file name of a joined path is the segment that was joined. *)
Lemma basename_join (dir seg : string) :
  has_char sep seg = false -> basename (join dir seg) = seg.
Proof.
  intros H. rewrite basename_last_segment, (join_segment _ _ H).
  destruct (String.eqb dir "") eqn:Hd.
  - apply String.eqb_eq in Hd as ->. cbn [orb]. rewrite append_empty_l.
    now apply last_segment_plain.
  - cbn [orb]. destruct (endswith_sep dir) eqn:He.
    + destruct (endswith_sep_inv _ He) as (a & ->).
      rewrite append_assoc, append_cons, append_empty_l.
      rewrite last_segment_after_sep. now apply last_segment_plain.
    + change ("/" ++ seg) with (String sep seg).
      rewrite last_segment_after_sep. now apply last_segment_plain.
Qed.

End PathMore.

(** ** More on the local cache fetcher *)

(** X1: the path [download_from_s3] returns has the file name of the key:
    its basename is the key's basename. *)
Theorem cached_file_keeps_key_name (bucket key dir : string) (w : world) (p : string) :
  fst (download_from_s3 bucket key dir w) = Ok p ->
  Path.basename p = Path.basename key.
Proof.
  rewrite download_cases. cbn zeta.
  assert (E : Path.basename (Path.join dir (Path.basename key)) = Path.basename key).
  { apply PathMore.basename_join. rewrite PathFacts.basename_last_segment.
    apply PathFacts.last_segment_without_sep. }
  destruct (stale w _); [destruct (store w !! _)|]; cbn; intros [= <-]; exact E.
Qed.

Lemma cached_file_keeps_key_name_witness :
  Path.basename "/tmp/session/KEN/c.tif" = Path.basename "a/b/c.tif".
Proof.
  apply (cached_file_keeps_key_name "geo-bucket" "a/b/c.tif" session_dir fetch_world).
  reflexivity.
Defined.

(** X2: a call changes no local file other than the one at its own path,
    leaves the object store and the clock alone and sends at most one
    request. *)
Theorem download_touches_one_path (bucket key dir : string) (w : world) :
  let path := Path.join dir (Path.basename key) in
  let w' := snd (download_from_s3 bucket key dir w) in
  (forall q, q <> path -> fs w' !! q = fs w !! q)
  /\ store w' = store w
  /\ now w' = now w
  /\ (length (requests w') <= length (requests w) + 1)%nat.
Proof.
  intros path w'. subst w'. rewrite download_cases. fold path. cbn zeta.
  destruct (stale w path); [destruct (store w !! (bucket, key))|]; cbn;
    repeat split; try reflexivity; try lia;
    try (rewrite length_app; cbn; lia).
  intros q Hq. now apply lookup_insert_ne.
Qed.

Lemma download_touches_one_path_witness :
  fs (snd (download_from_s3 "geo-bucket" "a/b/c.tif" session_dir
             (world_with (one_band [cells_8_12] None)))) !! tif
  = fs (world_with (one_band [cells_8_12] None)) !! tif.
Proof.
  apply (download_touches_one_path "geo-bucket" "a/b/c.tif" session_dir
           (world_with (one_band [cells_8_12] None))).
  discriminate.
Defined.



(** X4: keys with the same file name share one cached file: once a call
    for one key has succeeded, a call for another key with the same
    basename (in any bucket, present in the store or not) inside the
    freshness window sends no request and returns the first key's file. *)
Theorem basename_collision_serves_cached_file
    (bucket1 key1 bucket2 key2 dir : string) (w w1 : world) (p : string) (t2 : f64) :
  Path.basename key1 = Path.basename key2 ->
  download_from_s3 bucket1 key1 dir w = (Ok p, w1) ->
  stale (set_now w1 t2) p = false ->
  download_from_s3 bucket2 key2 dir (set_now w1 t2) = (Ok p, set_now w1 t2).
Proof.
  intros Hb H1 Hfresh.
  assert (Hp : p = Path.join dir (Path.basename key1)).
  { rewrite download_cases in H1. cbn zeta in H1.
    destruct (stale w _); [destruct (store w !! _)|];
      try discriminate; injection H1 as <- _; reflexivity. }
  rewrite download_cases, <- Hb, <- Hp. cbn zeta. now rewrite Hfresh.
Qed.

Lemma basename_collision_serves_cached_file_witness :
  download_from_s3 "other-bucket" "x/y/c.tif" session_dir
    (set_now (downloaded fetch_world "geo-bucket" "a/b/c.tif"
                "/tmp/session/KEN/c.tif" (Blob "II*")) (F64.of_Z 2003600))
  = (Ok "/tmp/session/KEN/c.tif",
     set_now (downloaded fetch_world "geo-bucket" "a/b/c.tif"
                "/tmp/session/KEN/c.tif" (Blob "II*")) (F64.of_Z 2003600)).
Proof.
  apply (basename_collision_serves_cached_file "geo-bucket" "a/b/c.tif"
           "other-bucket" "x/y/c.tif" session_dir fetch_world).
  - reflexivity.
  - vm_compute. reflexivity.
  - vm_compute. reflexivity.
Defined.

(** ** More on the stretch calculator *)

Lemma eqb_key (x y : f64) :
  F64.isnan x = false -> F64.isnan y = false ->
  (F64.eqb x y = true <-> float_key x = float_key y).
Proof.
  intros Hx Hy. unfold F64.eqb, SFeqb, SFcompare, float_key.
  destruct x as [sx|sx| |sx mx ex], y as [sy|sy| |sy my ey];
    try discriminate; try destruct sx; try destruct sy; cbn;
    F64Order.split_compare; cbn; split; intros Hgoal;
    try reflexivity; try discriminate; try congruence;
    try (injection Hgoal; intros; lia).
Qed.

Lemma leb_antisym (x y : f64) :
  F64.isnan x = false -> F64.isnan y = false ->
  F64.leb x y = true -> F64.leb y x = true -> F64.eqb x y = true.
Proof.
  intros Hx Hy Hxy Hyx.
  apply F64Order.leb_key in Hxy; [|assumption..].
  apply F64Order.leb_key in Hyx; [|assumption..].
  apply eqb_key; [assumption..|]. unfold lex_le in *.
  destruct (float_key x) as [[a1 a2] a3], (float_key y) as [[b1 b2] b3].
  f_equal; [f_equal|]; lia.
Qed.

Lemma calculate_cases (path method : string) (pc : f64 * f64) (k : f64) (w : world) :
  calculate_vmin_vmax path method pc k w
  = match raster_at w path with
    | None => (Raise (RasterioIOError path), w)
    | Some r =>
        match bands r with
        | [] => (Raise (IndexError "band index 1 out of range (not in ())"), w)
        | band :: _ => stretch (pixel_sample_set band (nodata r)) method pc k w
        end
    end.
Proof.
  destruct (raster_at w path) as [r|] eqn:Hr.
  - destruct (bands r) as [|band rest] eqn:Hb.
    + unfold calculate_vmin_vmax, raster_at, rasterio_open, mbind, M_bind in *.
      destruct (fs w !! path) as [[mt [r'|b]]|]; try discriminate.
      cbn in Hr. injection Hr as ->. unfold read_band1. now rewrite Hb.
    + now apply calculate_on_sample with rest.
  - unfold calculate_vmin_vmax, raster_at, rasterio_open, mbind, M_bind in *.
    destruct (fs w !! path) as [[mt [r'|b]]|]; try discriminate; reflexivity.
Qed.

Lemma stretch_ok_inv (sample : list f64) (method : string) (pc : f64 * f64)
    (k : f64) (w : world) (v : f64 * f64) :
  fst (stretch sample method pc k w) = Ok v ->
  sample <> [] /\ known_method method = true.
Proof.
  unfold stretch, known_method. destruct sample as [|x xs]; [discriminate|].
  intros H. split; [discriminate|].
  rewrite size_nonempty in H by discriminate.
  destruct (String.eqb method "min_max"); [reflexivity|].
  destruct (String.eqb method "percent_clip"); [reflexivity|].
  destruct (String.eqb method "std_dev"); [reflexivity | discriminate].
Qed.

Lemma sample_finite (band : list (list f64)) (nd : option f64) (x : f64) :
  In x (pixel_sample_set band nd) -> finite_cell x = true.
Proof.
  intros Hx. apply filter_In in Hx as [_ Hx]. now destruct x.
Qed.

(** X5: [calculate_vmin_vmax] returns a range only for a path that holds a
    raster with a first band, a non-empty sample set and one of the three
    methods; a path without a readable raster raises RasterioIOError and a
    raster without bands raises IndexError, each with the world unchanged. *)
Theorem calculate_outcomes (path method : string) (pc : f64 * f64) (k : f64) (w : world) :
  let out := calculate_vmin_vmax path method pc k w in
  (forall v, fst out = Ok v ->
     exists r band rest,
       raster_at w path = Some r /\ bands r = band :: rest
       /\ pixel_sample_set band (nodata r) <> []
       /\ known_method method = true)
  /\ (raster_at w path = None -> out = (Raise (RasterioIOError path), w))
  /\ (forall r, raster_at w path = Some r -> bands r = [] ->
      exists msg, out = (Raise (IndexError msg), w)).
Proof.
  intros out. subst out. rewrite calculate_cases. split; [|split].
  - intros v H. destruct (raster_at w path) as [r|]; [|discriminate].
    destruct (bands r) as [|band rest] eqn:Hb; [discriminate|].
    destruct (stretch_ok_inv _ _ _ _ _ _ H) as [Hne Hm].
    now exists r, band, rest.
  - intros ->. reflexivity.
  - intros r -> ->. eauto.
Qed.

Lemma calculate_outcomes_witness :
  calculate_vmin_vmax "/nowhere.tif" "min_max" default_percent_clip default_std_factor
    (world_with (one_band [cells_8_12] None))
  = (Raise (RasterioIOError "/nowhere.tif"), world_with (one_band [cells_8_12] None)).
Proof.
  apply (calculate_outcomes "/nowhere.tif" "min_max" default_percent_clip
           default_std_factor (world_with (one_band [cells_8_12] None))).
  reflexivity.
Defined.

(** X6: a range returned by method 'min_max' is ordered and finite:
    vmin <= vmax, and neither bound is NaN or infinite. *)
Theorem min_max_range_ordered_finite
    (path : string) (pc : f64 * f64) (k : f64) (w w' : world) (vmin vmax : f64) :
  calculate_vmin_vmax path "min_max" pc k w = (Ok (vmin, vmax), w') ->
  F64.leb vmin vmax = true
  /\ finite_cell vmin = true
  /\ finite_cell vmax = true.
Proof.
  rewrite calculate_cases. intros H.
  destruct (raster_at w path) as [r|]; [|discriminate].
  destruct (bands r) as [|band rest]; [discriminate|].
  assert (Hne : pixel_sample_set band (nodata r) <> []).
  { eapply stretch_ok_inv. rewrite H. reflexivity. }
  destruct (stretch_min_max _ pc k w Hne (sample_no_nan _ _))
    as (lo & hi & E & [Hlo Hmin] & [Hhi Hmax]).
  rewrite E in H. injection H as <- <- _.
  split; [now apply Hmin|]. split; eapply sample_finite; eassumption.
Qed.

Lemma min_max_range_ordered_finite_witness :
  F64.leb (F64.of_Z 1) (F64.of_Z 9) = true
  /\ finite_cell (F64.of_Z 1) = true
  /\ finite_cell (F64.of_Z 9) = true.
Proof.
  apply (min_max_range_ordered_finite tif default_percent_clip default_std_factor
           (world_with (one_band [cells_1_5_3_9_2] None))
           (world_with (one_band [cells_1_5_3_9_2] None))).
  reflexivity.
Defined.

Lemma filter_all_true {A : Type} (f : A -> bool) (l : list A) :
  (forall x, In x l -> f x = true) -> List.filter f l = l.
Proof.
  induction l as [|x l IH]; intros H; [reflexivity|]. cbn.
  rewrite (H x (or_introl eq_refl)), IH; [reflexivity|].
  intros y Hy. apply H. now right.
Qed.

Lemma nonfinite_sentinel (band : list (list f64)) (s : f64) :
  finite_cell s = false -> pixel_sample_set band (Some s) = pixel_sample_set band None.
Proof.
  intros Hs. unfold pixel_sample_set. apply filter_ext. intros x.
  destruct x as [sx|sx| |sx mx ex], s as [ss|ss| |ss ms es];
    try discriminate; try reflexivity; cbn; try destruct sx; try destruct ss; reflexivity.
Qed.

(** X7: a declared no-data value that is NaN or infinite discards no cell:
    the call gives the same outcome as on a raster with the same bands that
    declares none. *)
Theorem nonfinite_nodata_is_ignored
    (w1 w2 : world) (p1 p2 : string) (r1 r2 : raster) (s : f64)
    (method : string) (pc : f64 * f64) (k : f64) :
  raster_at w1 p1 = Some r1 ->
  raster_at w2 p2 = Some r2 ->
  bands r1 = bands r2 ->
  nodata r1 = Some s ->
  finite_cell s = false ->
  nodata r2 = None ->
  fst (calculate_vmin_vmax p1 method pc k w1) = fst (calculate_vmin_vmax p2 method pc k w2).
Proof.
  intros H1 H2 Hb Hs Hf Hn. rewrite !calculate_cases, H1, H2, <- Hb, Hs, Hn.
  destruct (bands r1) as [|band rest]; [reflexivity|].
  rewrite (nonfinite_sentinel _ _ Hf).
  generalize (pixel_sample_set band None). intros sample.
  unfold stretch, np_min, np_max, np_percentile, mbind, M_bind, mret, M_ret, raise.
  destruct (Np.size sample =? 0); [reflexivity|].
  destruct (String.eqb method "min_max").
  { destruct (Np.min sample); [|reflexivity]. destruct (Np.max sample); reflexivity. }
  destruct (String.eqb method "percent_clip").
  { destruct (Np.percentile sample pc); reflexivity. }
  destruct (String.eqb method "std_dev"); reflexivity.
Qed.

Lemma nonfinite_nodata_is_ignored_witness :
  fst (calculate_vmin_vmax tif "min_max" default_percent_clip default_std_factor
         (world_with (one_band [cells_1_nan_inf_5] (Some F64.nan))))
  = fst (calculate_vmin_vmax tif "min_max" default_percent_clip default_std_factor
           (world_with (one_band [cells_1_nan_inf_5] None))).
Proof.
  apply (nonfinite_nodata_is_ignored
           (world_with (one_band [cells_1_nan_inf_5] (Some F64.nan)))
           (world_with (one_band [cells_1_nan_inf_5] None)) tif tif
           (one_band [cells_1_nan_inf_5] (Some F64.nan))
           (one_band [cells_1_nan_inf_5] None) F64.nan);
    reflexivity.
Defined.

(** X8: the 'min_max' range depends only on which cell values occur: two
    rasters with the same no-data value whose first bands hold the same
    values, in any shape, order or multiplicity, get bounds that compare
    equal. *)
Theorem min_max_ignores_arrangement
    (w1 w2 : world) (p1 p2 : string) (r1 r2 : raster)
    (b1 b2 : list (list f64)) (rest1 rest2 : list (list (list f64)))
    (pc : f64 * f64) (k : f64) (lo1 hi1 : f64) (w1' : world) :
  raster_at w1 p1 = Some r1 -> bands r1 = b1 :: rest1 ->
  raster_at w2 p2 = Some r2 -> bands r2 = b2 :: rest2 ->
  nodata r1 = nodata r2 ->
  (forall x, In x (concat b1) <-> In x (concat b2)) ->
  calculate_vmin_vmax p1 "min_max" pc k w1 = (Ok (lo1, hi1), w1') ->
  exists lo2 hi2,
    calculate_vmin_vmax p2 "min_max" pc k w2 = (Ok (lo2, hi2), w2)
    /\ F64.eqb lo1 lo2 = true /\ F64.eqb hi1 hi2 = true.
Proof.
  intros Hr1 Hb1 Hr2 Hb2 Hnd Hcells H1.
  rewrite (calculate_on_sample _ _ _ _ _ _ _ _ Hr1 Hb1) in H1.
  rewrite (calculate_on_sample _ _ _ _ _ _ _ _ Hr2 Hb2).
  set (s1 := pixel_sample_set b1 (nodata r1)) in *.
  set (s2 := pixel_sample_set b2 (nodata r2)).
  assert (Hsame : forall x, In x s1 <-> In x s2).
  { intros x. subst s1 s2. unfold pixel_sample_set. rewrite !filter_In, Hnd, Hcells.
    reflexivity. }
  assert (Hne1 : s1 <> []) by (eapply stretch_ok_inv; rewrite H1; reflexivity).
  assert (Hne2 : s2 <> []).
  { destruct s1 as [|x xs]; [contradiction|]. intros E.
    assert (Hin : In x s2) by (apply Hsame; now left). rewrite E in Hin. destruct Hin. }
  assert (Hn1 : no_nan s1) by apply sample_no_nan.
  assert (Hn2 : no_nan s2) by apply sample_no_nan.
  destruct (stretch_min_max s1 pc k w1 Hne1 Hn1) as (a & b & E1 & [Ha Hmin1] & [Hb Hmax1]).
  destruct (stretch_min_max s2 pc k w2 Hne2 Hn2) as (lo2 & hi2 & E2 & [Hlo Hmin2] & [Hhi Hmax2]).
  rewrite E1 in H1. injection H1 as <- <- _.
  exists lo2, hi2. split; [exact E2|]. split.
  - apply leb_antisym; [now apply Hn1 | now apply Hn2 | |].
    + apply Hmin1. now apply Hsame.
    + apply Hmin2. now apply Hsame.
  - apply leb_antisym; [now apply Hn1 | now apply Hn2 | |].
    + apply Hmax2. now apply Hsame.
    + apply Hmax1. now apply Hsame.
Qed.

Lemma min_max_ignores_arrangement_witness :
  exists lo2 hi2,
    calculate_vmin_vmax tif "min_max" default_percent_clip default_std_factor
      (world_with (one_band [map F64.of_Z [9; 2]; map F64.of_Z [1; 5]; map F64.of_Z [3; 3]] None))
    = (Ok (lo2, hi2),
       world_with (one_band [map F64.of_Z [9; 2]; map F64.of_Z [1; 5]; map F64.of_Z [3; 3]] None))
    /\ F64.eqb (F64.of_Z 1) lo2 = true /\ F64.eqb (F64.of_Z 9) hi2 = true.
Proof.
  apply (min_max_ignores_arrangement
           (world_with (one_band [cells_1_5_3_9_2] None))
           (world_with (one_band [map F64.of_Z [9; 2]; map F64.of_Z [1; 5];
                                  map F64.of_Z [3; 3]] None))
           tif tif
           (one_band [cells_1_5_3_9_2] None)
           (one_band [map F64.of_Z [9; 2]; map F64.of_Z [1; 5]; map F64.of_Z [3; 3]] None)
           [cells_1_5_3_9_2]
           [map F64.of_Z [9; 2]; map F64.of_Z [1; 5]; map F64.of_Z [3; 3]] [] []
           default_percent_clip default_std_factor (F64.of_Z 1) (F64.of_Z 9)
           (world_with (one_band [cells_1_5_3_9_2] None)));
    try reflexivity.
  intros x. cbn. tauto.
Defined.

(** ** File names and extensions *)

Module SplitextFacts.
Import Path PathFacts PathMore.





Lemma take_drop (n : nat) (s : string) : take_chars n s ++ drop_chars n s = s.
Proof.
  revert s. induction n as [|n IH]; intros s; [reflexivity|].
  destruct s as [|d s]; [reflexivity|]. cbn [take_chars drop_chars].
  rewrite append_cons. now rewrite IH.
Qed.

(** The two parts [splitext] returns make up the path again. *)
Lemma splitext_concat (p : string) : fst (splitext p) ++ snd (splitext p) = p.
Proof.
  unfold splitext. destruct (_ && _); cbn [fst snd].
  - apply take_drop.
  - clear. induction p as [|d p IH]; [reflexivity|]. rewrite append_cons. now rewrite IH.
Qed.




End SplitextFacts.

(** ** [visualize_vector] *)



(** ** More on [visualize_raster] *)


Lemma calculate_world (path method : string) (pc : f64 * f64) (k : f64) (w : world) :
  snd (calculate_vmin_vmax path method pc k w) = w.
Proof.
  rewrite calculate_cases. destruct (raster_at w path) as [r|]; [|reflexivity].
  destruct (bands r); [reflexivity | apply stretch_world].
Qed.

Lemma missing_bound (vmin vmax : option f64) :
  vmin = None \/ vmax = None -> is_none vmin || is_none vmax = true.
Proof. intros [-> | ->]; [reflexivity | apply orb_true_r]. Qed.




(** X11: when [vmin] or [vmax] is missing and the range cannot be computed,
    [visualize_raster] raises that error before the overview step: even with
    [build_overviews] set the world is left as it was. *)
Theorem visualize_raster_range_error_first
    (img : string) (ln : option string) (cm : string) (vmin vmax : option f64)
    (flag : bool) (levels : list Z) (w : world) (e : exn) :
  vmin = None \/ vmax = None ->
  fst (calculate_vmin_vmax img "std_dev" default_percent_clip default_std_factor w)
  = Raise e ->
  visualize_raster img ln cm vmin vmax flag levels w = (Raise e, w).
Proof.
  intros Hnone He. unfold visualize_raster, assign_range.
  rewrite (missing_bound _ _ Hnone). unfold mbind, M_bind.
  pose proof (calculate_world img "std_dev" default_percent_clip default_std_factor w) as Hw.
  destruct (calculate_vmin_vmax img "std_dev" default_percent_clip default_std_factor w)
    as [[v|e'] w1]; cbn in He, Hw; [discriminate|].
  injection He as ->. now subst w1.
Qed.

Lemma visualize_raster_range_error_first_witness :
  visualize_raster tif None "binary" None None true default_overviews_levels
    (world_with (one_band [[F64.nan; F64.of_Z 7]] (Some (F64.of_Z 7))))
  = (Raise (ValueError no_valid_pixels_msg),
     world_with (one_band [[F64.nan; F64.of_Z 7]] (Some (F64.of_Z 7)))).
Proof.
  apply (visualize_raster_range_error_first tif None "binary" None None true
           default_overviews_levels
           (world_with (one_band [[F64.nan; F64.of_Z 7]] (Some (F64.of_Z 7)))));
    first [reflexivity | now left].
Defined.






(** ** [create_map] *)

Lemma download_ok_file (bucket key dir : string) (w w1 : world) (p : string) :
  download_from_s3 bucket key dir w = (Ok p, w1) -> is_Some (fs w1 !! p).
Proof.
  rewrite download_cases. cbn zeta. set (path := Path.join dir (Path.basename key)).
  destruct (stale w path) eqn:Hs; [destruct (store w !! (bucket, key))|];
    intros [= <- <-].
  - cbn. rewrite lookup_insert_eq. eauto.
  - unfold stale in Hs. destruct (fs w !! path); [eauto | discriminate].
Qed.

Lemma assign_range_fs (img : string) (vmin vmax : option f64) (w : world) :
  fs (snd (assign_range img vmin vmax w)) = fs w.
Proof.
  unfold assign_range. destruct (is_none vmin || is_none vmax); [|reflexivity].
  unfold mbind, M_bind.
  pose proof (calculate_world img "std_dev" default_percent_clip default_std_factor w) as Hw.
  destruct (calculate_vmin_vmax img "std_dev" default_percent_clip default_std_factor w)
    as [[v|e] w1]; cbn in Hw; subst w1; reflexivity.
Qed.

Lemma visualize_raster_no_overviews_fs
    (img : string) (ln : option string) (cm : string) (vmin vmax : option f64)
    (levels : list Z) (w : world) :
  fs (snd (visualize_raster img ln cm vmin vmax false levels w)) = fs w.
Proof.
  unfold visualize_raster. unfold mbind, M_bind at 1.
  pose proof (assign_range_fs img vmin vmax w) as Hfs.
  destruct (assign_range img vmin vmax w) as [[[a b]|e] w1]; cbn [snd] in *; [|exact Hfs].
  unfold overviews_step, render, load_local, mbind, M_bind, mret, M_ret, raise. cbn [fst snd].
  destruct a, b; exact Hfs.
Qed.


Lemma create_map_cases
    (size_of : content -> Z) (bucket key : string) (ln : option string)
    (dir : string) (w : world) :
  create_map size_of bucket key ln dir w
  = match download_from_s3 bucket key dir w with
    | (Ok p, w1) =>
        if member (extension key) raster_extensions then
          match getsize size_of p w1 with
          | (Ok _, w2) =>
              match visualize_raster p ln "binary" None None false
                      default_overviews_levels w2 with
              | (Ok m, w3) => (Ok (Some m, []), w3)
              | (Raise e, w3) => (Raise e, w3)
              end
          | (Raise e, w2) => (Raise e, w2)
          end
        else if member (extension key) vector_extensions then
          match visualize_vector p ln w1 with
          | (Ok m, w2) => (Ok (Some m, []), w2)
          | (Raise e, w2) => (Raise e, w2)
          end
        else (Ok (None, [unsupported_msg (extension key)]), w1)
    | (Raise e, w1) => (Raise e, w1)
    end.
Proof.
  unfold create_map, mbind, M_bind.
  destruct (download_from_s3 bucket key dir w) as [[p|e] w1]; [|reflexivity].
  destruct (member (extension key) raster_extensions); [reflexivity|].
  destruct (member (extension key) vector_extensions); reflexivity.
Qed.



(** X15: the size of the downloaded file has no effect on [create_map]: the
    100 MB test only sets a local that is never passed on, so the outcome is
    the same for every file size, and no overviews are built: the local
    files after the call are the ones the download left. *)
Theorem create_map_ignores_file_size
    (size1 size2 : content -> Z) (bucket key : string) (ln : option string)
    (dir : string) (w : world) :
  create_map size1 bucket key ln dir w = create_map size2 bucket key ln dir w
  /\ fs (snd (create_map size1 bucket key ln dir w))
     = fs (snd (download_from_s3 bucket key dir w)).
Proof.
  rewrite !create_map_cases.
  destruct (download_from_s3 bucket key dir w) as [[p|e] w1] eqn:Hd; [|now split].
  destruct (download_ok_file _ _ _ _ _ _ Hd) as [f Hf].
  destruct (member (extension key) raster_extensions).
  - unfold getsize. rewrite Hf. split; [reflexivity|].
    pose proof (visualize_raster_no_overviews_fs p ln "binary" None None
                  default_overviews_levels w1) as Hfs.
    destruct (visualize_raster p ln "binary" None None false default_overviews_levels w1)
      as [[m|e] w2]; exact Hfs.
  - destruct (member (extension key) vector_extensions); now split.
Qed.



(** ** [list_folders] *)

Module ListFoldersFacts.
Import Path PathFacts PathMore.

Lemma split_snoc_sep (c : ascii) (s : string) :
  split c (s ++ String c "") = (split c s ++ [""])%list.
Proof.
  induction s as [|d s IH].
  - rewrite append_empty_l. cbn. now rewrite Ascii.eqb_refl.
  - rewrite append_cons. cbn [split]. rewrite IH. destruct (Ascii.eqb d c); [reflexivity|].
    destruct (split c s) as [|h t] eqn:Hs; [now apply split_nonempty in Hs | reflexivity].
Qed.

Lemma nth_error_last {A : Type} (l : list A) (d : A) :
  l <> [] -> nth_error l (length l - 1) = Some (List.last l d).
Proof.
  induction l as [|x l IH]; [contradiction|]. intros _.
  destruct l as [|y l]; [reflexivity|].
  replace (length (x :: y :: l) - 1)%nat with (S (length (y :: l) - 1)) by (cbn; lia).
  cbn [nth_error]. rewrite IH by discriminate. reflexivity.
Qed.

Lemma py_index_penultimate {A : Type} (l : list A) (x d : A) :
  l <> [] -> py_index (l ++ [x])%list (-2) = Some (List.last l d).
Proof.
  intros Hl. unfold py_index. rewrite length_app. cbn [length].
  assert (Hlen : (0 < length l)%nat) by (destruct l; [contradiction | cbn; lia]).
  replace (-2 <? 0) with true by reflexivity.
  assert (E1 : (0 <=? -2 + Z.of_nat (length l + 1)) = true) by (apply Z.leb_le; lia).
  assert (E2 : (-2 + Z.of_nat (length l + 1) <? Z.of_nat (length l + 1)) = true)
    by (apply Z.ltb_lt; lia).
  rewrite E1, E2. cbn [andb].
  replace (Z.to_nat (-2 + Z.of_nat (length l + 1))) with (length l - 1)%nat by lia.
  rewrite nth_error_app1 by lia. now apply nth_error_last.
Qed.

(** The folder of a common prefix [base name /]. *)
Lemma folder_of_shape (base name : string) :
  base = "" \/ endswith_sep base = true ->
  has_char sep name = false ->
  folder_of (base ++ name ++ "/") = Ok name.
Proof.
  intros Hbase Hname. unfold folder_of.
  rewrite <- append_assoc. change "/" with (String sep "").
  rewrite split_snoc_sep, (py_index_penultimate _ _ "") by apply split_nonempty.
  fold (last_segment (base ++ name)).
  destruct Hbase as [-> | He].
  - rewrite append_empty_l. now rewrite last_segment_plain.
  - destruct (endswith_sep_inv _ He) as (a & ->).
    rewrite append_assoc, append_cons, append_empty_l, last_segment_after_sep.
    now rewrite last_segment_plain.
Qed.

Lemma folder_of_slashless (p : string) :
  has_char sep p = false ->
  folder_of p = Raise (IndexError "list index out of range").
Proof. intros H. unfold folder_of. now rewrite (split_without _ _ H). Qed.

Lemma folder_of_raise (p : string) (e : exn) :
  folder_of p = Raise e -> e = IndexError "list index out of range".
Proof.
  unfold folder_of. destruct (py_index _ _); [discriminate | now intros [= <-]].
Qed.

Lemma add_folders_ok (page : list string) :
  forall acc,
    (forall p, In p page -> exists n, folder_of p = Ok n) ->
    exists folders,
      add_folders page acc = Ok folders
      /\ forall n, n ∈ folders <-> n ∈ acc \/ exists p, In p page /\ folder_of p = Ok n.
Proof.
  induction page as [|p page IH]; intros acc H.
  - exists acc. split; [reflexivity|]. intros n. split; [now left|].
    intros [Hn | (p & [] & _)]. exact Hn.
  - destruct (H p (or_introl eq_refl)) as [n0 Hn0]. cbn [add_folders]. rewrite Hn0.
    destruct (IH (acc ∪ {[ n0 ]}) (fun q Hq => H q (or_intror Hq))) as (folders & E & Hin).
    exists folders. split; [exact E|]. intros n. rewrite Hin. split.
    + intros [Hn | (q & Hq & Hfq)].
      * apply elem_of_union in Hn as [Hn | Hn]; [now left|].
        apply elem_of_singleton in Hn as ->. right. exists p. split; [now left | exact Hn0].
      * right. exists q. split; [now right | exact Hfq].
    + intros [Hn | (q & [<- | Hq] & Hfq)].
      * left. apply elem_of_union. now left.
      * left. apply elem_of_union. right. apply elem_of_singleton. congruence.
      * right. now exists q.
Qed.

Lemma add_folders_raise_inv (page : list string) :
  forall acc e, add_folders page acc = Raise e -> e = IndexError "list index out of range".
Proof.
  induction page as [|p page IH]; intros acc e; cbn [add_folders]; [discriminate|].
  destruct (folder_of p) as [n|e'] eqn:Hp; [apply IH|].
  intros [= <-]. now apply folder_of_raise in Hp.
Qed.

Lemma add_folders_raise (page : list string) :
  forall acc p e,
    In p page -> folder_of p = Raise e ->
    add_folders page acc = Raise (IndexError "list index out of range").
Proof.
  induction page as [|q page IH]; intros acc p e Hin Hp; [destruct Hin|].
  cbn [add_folders]. destruct (folder_of q) as [n|e'] eqn:Hq.
  - destruct Hin as [-> | Hin]; [congruence|]. now apply (IH _ p e).
  - now apply folder_of_raise in Hq as ->.
Qed.

Lemma scan_pages_ok (pages : list (list string)) :
  forall acc,
    (forall page p, In page pages -> In p page -> exists n, folder_of p = Ok n) ->
    exists folders,
      scan_pages pages acc = Ok folders
      /\ forall n, n ∈ folders <->
           n ∈ acc \/ exists page p, In page pages /\ In p page /\ folder_of p = Ok n.
Proof.
  induction pages as [|page pages IH]; intros acc H.
  - exists acc. split; [reflexivity|]. intros n. split; [now left|].
    intros [Hn | (page & p & [] & _)]. exact Hn.
  - destruct (add_folders_ok page acc (fun p Hp => H page p (or_introl eq_refl) Hp))
      as (f1 & E1 & Hin1).
    destruct (IH f1 (fun pg p Hpg Hp => H pg p (or_intror Hpg) Hp)) as (f2 & E2 & Hin2).
    exists f2. cbn [scan_pages]. rewrite E1. split; [exact E2|].
    intros n. rewrite Hin2, Hin1. split.
    + intros [[Hn | (p & Hp & Hf)] | (pg & p & Hpg & Hp & Hf)].
      * now left.
      * right. exists page, p. split; [now left | now split].
      * right. exists pg, p. split; [now right | now split].
    + intros [Hn | (pg & p & [<- | Hpg] & Hp & Hf)].
      * left. now left.
      * left. right. now exists p.
      * right. now exists pg, p.
Qed.

Lemma scan_pages_raise (pages : list (list string)) :
  forall acc page p e,
    In page pages -> In p page -> folder_of p = Raise e ->
    scan_pages pages acc = Raise (IndexError "list index out of range").
Proof.
  induction pages as [|pg pages IH]; intros acc page p e Hpg Hp Hf; [destruct Hpg|].
  cbn [scan_pages]. destruct (add_folders pg acc) as [f1|e1] eqn:E1.
  - destruct Hpg as [-> | Hpg].
    + rewrite (add_folders_raise _ acc p e Hp Hf) in E1. discriminate.
    + now apply (IH f1 page p e).
  - now apply add_folders_raise_inv in E1 as ->.
Qed.

End ListFoldersFacts.

Lemma list_folders_shape
    (paginate : string -> string -> list (list string))
    (bucket prefix : string) (w : world) :
  (forall page p, In page (paginate bucket prefix) -> In p page ->
     exists base name,
       p = base ++ name ++ "/"
       /\ (base = "" \/ Path.endswith_sep base = true)
       /\ Path.has_char Path.sep name = false) ->
  exists folders,
    list_folders paginate bucket prefix w = (Ok folders, w)
    /\ forall name,
         name ∈ folders <->
         Path.has_char Path.sep name = false
         /\ exists page base,
              In page (paginate bucket prefix)
              /\ In (base ++ name ++ "/") page
              /\ (base = "" \/ Path.endswith_sep base = true).
Proof.
  intros Hshape. unfold list_folders.
  destruct (ListFoldersFacts.scan_pages_ok (paginate bucket prefix) ∅) as (folders & E & Hin).
  { intros page p Hpg Hp. destruct (Hshape page p Hpg Hp) as (base & name & -> & Hb & Hn).
    exists name. now apply ListFoldersFacts.folder_of_shape. }
  exists folders. rewrite E. split; [reflexivity|]. intros name. rewrite Hin. split.
  - intros [Hn | (page & p & Hpg & Hp & Hf)]; [now apply not_elem_of_empty in Hn|].
    destruct (Hshape page p Hpg Hp) as (base & name' & -> & Hb & Hn).
    rewrite (ListFoldersFacts.folder_of_shape _ _ Hb Hn) in Hf. injection Hf as <-.
    split; [exact Hn|]. now exists page, base.
  - intros (Hn & page & base & Hpg & Hp & Hb). right.
    exists page, (base ++ name ++ "/"). split; [exact Hpg|]. split; [exact Hp|].
    now apply ListFoldersFacts.folder_of_shape.
Qed.

(** X17: when every common prefix the listing yields has the form
    [base name /] with [base] empty or ending in a slash and [name] free of
    slashes (what the store returns for delimiter '/'), [list_folders]
    returns exactly the set of those names; a common prefix without any
    slash makes it raise IndexError. *)
Theorem list_folders_names
    (paginate : string -> string -> list (list string))
    (bucket prefix : string) (w : world) :
  ((forall page p, In page (paginate bucket prefix) -> In p page ->
      exists base name,
        p = base ++ name ++ "/"
        /\ (base = "" \/ Path.endswith_sep base = true)
        /\ Path.has_char Path.sep name = false) ->
   exists folders,
     list_folders paginate bucket prefix w = (Ok folders, w)
     /\ forall name,
          name ∈ folders <->
          Path.has_char Path.sep name = false
          /\ exists page base,
               In page (paginate bucket prefix)
               /\ In (base ++ name ++ "/") page
               /\ (base = "" \/ Path.endswith_sep base = true))
  /\ (forall page p, In page (paginate bucket prefix) -> In p page ->
      Path.has_char Path.sep p = false ->
      list_folders paginate bucket prefix w
      = (Raise (IndexError "list index out of range"), w)).
Proof.
  split; [apply list_folders_shape|].
  intros page p Hpg Hp Hno. unfold list_folders. f_equal.
  apply (ListFoldersFacts.scan_pages_raise _ ∅ page p _ Hpg Hp
           (ListFoldersFacts.folder_of_slashless _ Hno)).
Qed.

Lemma list_folders_names_witness :
  exists folders,
    list_folders (fun _ _ => [["gis/KEN/"; "gis/UGA/"]; ["gis/KEN/"]])
      "geo-bucket" "gis/" fetch_world
    = (Ok folders, fetch_world)
    /\ forall name,
         name ∈ folders <->
         Path.has_char Path.sep name = false
         /\ exists page base,
              In page [["gis/KEN/"; "gis/UGA/"]; ["gis/KEN/"]]
              /\ In (base ++ name ++ "/") page
              /\ (base = "" \/ Path.endswith_sep base = true).
Proof.
  apply (list_folders_names (fun _ _ => [["gis/KEN/"; "gis/UGA/"]; ["gis/KEN/"]])
           "geo-bucket" "gis/" fetch_world).
  intros page p Hpg Hp.
  destruct Hpg as [<- | [<- | []]].
  - destruct Hp as [<- | [<- | []]].
    + exists "gis/", "KEN". split; [reflexivity|]. split; [now right | reflexivity].
    + exists "gis/", "UGA". split; [reflexivity|]. split; [now right | reflexivity].
  - destruct Hp as [<- | []].
    exists "gis/", "KEN". split; [reflexivity|]. split; [now right | reflexivity].
Defined.

(** X18: under the same condition on the listing for [prefix/],
    [get_iso_list] returns the empty choice first, followed by the folder
    names, each once. *)
Theorem get_iso_list_entries
    (paginate : string -> string -> list (list string))
    (bucket prefix : string) (w : world) :
  (forall page p, In page (paginate bucket (prefix ++ "/")) -> In p page ->
     exists base name,
       p = base ++ name ++ "/"
       /\ (base = "" \/ Path.endswith_sep base = true)
       /\ Path.has_char Path.sep name = false) ->
  exists isos,
    get_iso_list paginate bucket prefix w = (Ok ("" :: isos), w)
    /\ List.NoDup isos
    /\ forall name,
         In name isos <->
         Path.has_char Path.sep name = false
         /\ exists page base,
              In page (paginate bucket (prefix ++ "/"))
              /\ In (base ++ name ++ "/") page
              /\ (base = "" \/ Path.endswith_sep base = true).
Proof.
  intros Hshape.
  destruct (list_folders_shape paginate bucket (prefix ++ "/") w Hshape)
    as (folders & E & Hin).
  exists (elements folders). unfold get_iso_list, mbind, M_bind. rewrite E.
  split; [reflexivity|]. split.
  - apply NoDup_ListNoDup, NoDup_elements.
  - intros name. rewrite <- Hin, <- list_elem_of_In. apply elem_of_elements.
Qed.

Lemma get_iso_list_entries_witness :
  exists isos,
    get_iso_list (fun _ _ => [["gis/KEN/"; "gis/UGA/"]; ["gis/KEN/"]])
      "geo-bucket" "gis" fetch_world
    = (Ok ("" :: isos), fetch_world)
    /\ List.NoDup isos
    /\ forall name,
         In name isos <->
         Path.has_char Path.sep name = false
         /\ exists page base,
              In page [["gis/KEN/"; "gis/UGA/"]; ["gis/KEN/"]]
              /\ In (base ++ name ++ "/") page
              /\ (base = "" \/ Path.endswith_sep base = true).
Proof.
  apply (get_iso_list_entries (fun _ _ => [["gis/KEN/"; "gis/UGA/"]; ["gis/KEN/"]])
           "geo-bucket" "gis" fetch_world).
  intros page p Hpg Hp.
  destruct Hpg as [<- | [<- | []]].
  - destruct Hp as [<- | [<- | []]].
    + exists "gis/", "KEN". split; [reflexivity|]. split; [now right | reflexivity].
    + exists "gis/", "UGA". split; [reflexivity|]. split; [now right | reflexivity].
  - destruct Hp as [<- | []].
    exists "gis/", "KEN". split; [reflexivity|]. split; [now right | reflexivity].
Defined.

(** ** A raster with a single valid pixel *)

Lemma sub_self (x : f64) : finite_cell x = true -> F64.sub x x = S754_zero false.
Proof.
  destruct x as [s|s| |s m e]; try discriminate; intros _.
  - now destruct s.
  - unfold F64.sub, SFsub. rewrite Z.sub_diag. reflexivity.
Qed.

Lemma sub_zero (x : f64) : finite_cell x = true -> F64.sub x (S754_zero false) = x.
Proof.
  destruct x as [s|s| |s m e]; try discriminate; intros _; [now destruct s | reflexivity].
Qed.

Lemma lerp_same (x : f64) :
  finite_cell x = true -> Np.lerp x x (F64.of_Z 1) = x.
Proof.
  intros Hx. unfold Np.lerp.
  replace (F64.geb (F64.of_Z 1) (F64.div (F64.of_Z 1) (F64.of_Z 2))) with true
    by (vm_compute; reflexivity).
  rewrite (sub_self x Hx).
  replace (F64.sub (F64.of_Z 1) (F64.of_Z 1)) with (S754_zero false)
    by (vm_compute; reflexivity).
  replace (F64.mul (S754_zero false) (S754_zero false)) with (S754_zero false)
    by reflexivity.
  now apply sub_zero.
Qed.

Lemma quantile_single (x q : f64) :
  finite_cell x = true ->
  F64.leb (F64.of_Z 0) q = true -> F64.leb q (F64.of_Z 1) = true ->
  Np.quantile [x] q = Some x.
Proof.
  intros Hx H0 H1. unfold Np.quantile.
  change (Np.size [x]) with 1. change (F64.of_Z (1 - 1)) with (S754_zero false).
  assert (Hvi : exists s, F64.mul (S754_zero false) q = S754_zero s).
  { destruct q as [s|s| |s m e]; try discriminate; try (now eexists).
    destruct s; discriminate. }
  destruct Hvi as [s ->].
  replace (Np.get_indexes (S754_zero s) 1) with (Some (-1, -1))
    by (now destruct s).
  change (Np.sort [x]) with [x]. change (Np.item [x] (-1)) with (Some x).
  replace (F64.sub (S754_zero s) (F64.of_Z (-1))) with (F64.of_Z 1)
    by (now destruct s).
  now rewrite lerp_same.
Qed.

(** X19: when exactly one cell [x] is valid, methods 'min_max' and
    'percent_clip' (for any two percentiles in [0, 100]) both return the
    degenerate range (x, x). *)
Theorem single_valid_pixel_range
    (w : world) (path : string) (r : raster)
    (band : list (list f64)) (rest : list (list (list f64)))
    (x : f64) (pc : f64 * f64) (k : f64) :
  raster_at w path = Some r ->
  bands r = band :: rest ->
  pixel_sample_set band (nodata r) = [x] ->
  calculate_vmin_vmax path "min_max" pc k w = (Ok (x, x), w)
  /\ (Np.quantile_is_valid [F64.div (fst pc) (F64.of_Z 100);
                            F64.div (snd pc) (F64.of_Z 100)] = true ->
      calculate_vmin_vmax path "percent_clip" pc k w = (Ok (x, x), w)).
Proof.
  intros Hr Hb Hs. rewrite !(calculate_on_sample _ _ _ _ _ _ _ _ Hr Hb), Hs.
  split; [reflexivity|]. intros Hv.
  assert (Hx : finite_cell x = true).
  { apply (sample_finite band (nodata r)). rewrite Hs. now left. }
  unfold stretch, np_percentile, Np.percentile. cbn [Np.size length Z.of_nat].
  change (Z.pos (Pos.of_succ_nat 0) =? 0) with false. cbn [String.eqb Ascii.eqb Bool.eqb].
  rewrite Hv. cbn [negb].
  unfold Np.quantile_is_valid in Hv. cbn [forallb] in Hv.
  apply andb_prop in Hv as [Hlo Hv]. apply andb_prop in Hv as [Hhi _].
  apply andb_prop in Hlo as [Hlo0 Hlo1]. apply andb_prop in Hhi as [Hhi0 Hhi1].
  rewrite (quantile_single x _ Hx Hlo0 Hlo1), (quantile_single x _ Hx Hhi0 Hhi1).
  reflexivity.
Qed.

Lemma single_valid_pixel_range_witness :
  calculate_vmin_vmax tif "percent_clip" default_percent_clip default_std_factor
    (world_with (one_band [[F64.nan; F64.of_Z 7; F64.of_Z 3]] (Some (F64.of_Z 7))))
  = (Ok (F64.of_Z 3, F64.of_Z 3),
     world_with (one_band [[F64.nan; F64.of_Z 7; F64.of_Z 3]] (Some (F64.of_Z 7)))).
Proof.
  apply (single_valid_pixel_range
           (world_with (one_band [[F64.nan; F64.of_Z 7; F64.of_Z 3]] (Some (F64.of_Z 7))))
           tif (one_band [[F64.nan; F64.of_Z 7; F64.of_Z 3]] (Some (F64.of_Z 7)))
           [[F64.nan; F64.of_Z 7; F64.of_Z 3]] [] (F64.of_Z 3));
    reflexivity.
Defined.
